(** * banshee detector: matching cache, scoring step and result buffer

    Shallow embedding of [detector/detector.go] (package [detector] of
    banshee): the per-sample pipeline [match] -> [detect] -> non-blocking
    send on the results channel.

    The detector mutates three shared objects: the hit cache, the state
    store behind [d.db.State] and the buffered channel [d.rc]. They are
    threaded explicitly through a small state monad whose state also
    carries the sequence of externally observable actions (collaborator
    calls, log lines, channel sends), so that ordering and frame
    properties can be stated.

    [Start], the accept loop that spawns one [handle] per connection, is
    not embedded; the statements are about the steps of one handler. *)

From Stdlib Require Import ZArith String List Bool Lia.
From stdpp Require Import base option gmap strings list fin_maps.

Local Open Scope string_scope.
Local Open Scope Z_scope.

(** ** models, config *)

Section Models.
(** Go's [float64]; no property below depends on floating point
    arithmetic, so the carrier is left open. *)
Variable float64 : Type.

(** [models.Metric]: the sample. [Score] and [Average] are filled in by
    [cursor.Next]. *)
Record Metric := mkMetric {
  Name : string;
  Stamp : Z;
  Value : float64;
  Score : float64;
  Average : float64
}.

(** [config.Config], restricted to what the detector reads:
    [cfg.Detector.Port], [cfg.Detector.Factor], [cfg.Detector.BlackList]
    and the result of the method [cfg.LeastC()]. *)
Record configDetector := mkConfigDetector {
  Port : Z;
  Factor : float64;
  BlackList : list string
}.

Record Config := mkConfig {
  Detector_ : configDetector;
  LeastC : Z
}.

(** [cursor.Cursor] as built by [cursor.New(factor, leastC)]. *)
Record Cursor := mkCursor {
  factor : float64;
  leastC : Z
}.
End Models.

Arguments mkMetric {float64}.
Arguments Name {float64}.
Arguments Stamp {float64}.
Arguments Value {float64}.
Arguments Score {float64}.
Arguments Average {float64}.
Arguments mkConfigDetector {float64}.
Arguments Port {float64}.
Arguments Factor {float64}.
Arguments BlackList {float64}.
Arguments mkConfig {float64}.
Arguments Detector_ {float64}.
Arguments LeastC {float64}.
Arguments mkCursor {float64}.
Arguments factor {float64}.
Arguments leastC {float64}.

(** [models.Rule]: the detector reads [Pattern] only; [ID] stands for the
    detection parameters it passes along uninterpreted. *)
Record Rule := mkRule {
  ID : Z;
  Pattern : string
}.

(** Modelled from the spec: the value returned by [d.db.Admin.GetRules()]
    is the ordered sequence of rules together with an opaque
    version/identity token of that snapshot (in Go, the identity of the
    returned slice). *)
Record RuleSet := mkRuleSet {
  rs_version : Z;
  rs_rules : list Rule
}.

(** Go [error] values as the detector distinguishes them: the sentinel
    [statedb.ErrNotFound] and everything else. *)
Inductive error : Type :=
| ErrNotFound
| ErrOther (msg : string).

#[global] Instance error_eq_dec : EqDecision error.
Proof. solve_decision. Defined.

(** ** The collaborators outside this file

    [util.Match], [cursor.Next], the store behind [d.db.State] and
    [parseMetric] live in other packages/files; the detector is
    embedded over any choice of them. *)
Class Collaborators := {
  float64 : Type;
  (** [util.Match(name, pattern)] *)
  Match : string -> string -> bool;
  (** [models.State] *)
  State : Type;
  (** [cursor.Next(s, m)]: [s] is a possibly nil pointer; the call fills
      [m.Score]/[m.Average] in place and returns the next state, so the
      embedding returns the updated sample as well. *)
  Next : Cursor float64 -> option State -> @Metric float64 -> State * @Metric float64;
  (** the store behind [d.db.State] *)
  StateDB : Type;
  (** [Get(m)] returns Go's pair [(s, err)] and does not write. *)
  Get : StateDB -> @Metric float64 -> option State * option error;
  (** [Put(m, n)] returns the store after the call and Go's [err]. *)
  Put : StateDB -> @Metric float64 -> State -> StateDB * option error;
  (** [parseMetric(line)] *)
  parseMetric : string -> error + @Metric float64
}.

(** ** The hit cache *)

(** Modelled from the spec: a cache entry is
    [{matched: bool, rule-reference-or-none}]. *)
Record cacheEntry := mkEntry {
  matched : bool;
  rule : option Rule
}.

(** Modelled from the spec: the cache of [detector/cache.go] maps metric
    names to entries and remembers the token of the rule set it was last
    validated against. *)
Record cache := mkCache {
  wlc : gmap string cacheEntry;
  seen : option Z
}.

(** Modelled from the spec: [newCache()] is empty and has seen no rule
    set. *)
Definition newCache : cache := {| wlc := ∅; seen := None |}.

(** Modelled from the spec: [lookup(name) -> absent or (matched, rule?)];
    [hitWhiteListCache] returns Go's pair [(hit, v)]. *)
Definition hitWhiteListCache {F} (c : cache) (m : @Metric F) : bool * bool :=
  match wlc c !! Name m with
  | Some e => (true, matched e)
  | None => (false, false)
  end.

(** Modelled from the spec: [record(name, matched, rule?)]. *)
Definition setWLC {F} (c : cache) (m : @Metric F) (r : option Rule) (v : bool) : cache :=
  {| wlc := <[Name m := mkEntry v r]> (wlc c); seen := seen c |}.

(** Modelled from the spec: [invalidateIfStale(currentRuleSetVersion)]
    compares the token of the given rule set with the stored one and, if
    they differ, clears the whole cache and stores the new token. *)
Definition updateRules (c : cache) (rs : RuleSet) : cache :=
  if decide (seen c = Some (rs_version rs)) then c
  else {| wlc := ∅; seen := Some (rs_version rs) |}.

(** ** Channels *)

(** A buffered Go channel: the queued items, oldest first, and the
    capacity given to [make]. *)
Record chan (A : Type) := mkChan {
  buf : list A;
  cap : Z
}.
Arguments mkChan {A}.
Arguments buf {A}.
Arguments cap {A}.

Definition make_chan (A : Type) (n : Z) : chan A := {| buf := []; cap := n |}.

(** [select { case ch <- x: ... default: ... }]: the send is taken when
    the buffer has room, otherwise the default branch runs. *)
Definition try_send {A} (ch : chan A) (x : A) : option (chan A) :=
  if Z.of_nat (length (buf ch)) <? cap ch
  then Some {| buf := buf ch ++ [x]; cap := cap ch |}
  else None.

(** ** Observable actions *)

Inductive level : Type := Debug | Info | Warn | Error.

(** What a run of the detector does to the outside, in program order.
    Log lines keep their format string, not the formatted arguments. *)
Inductive event : Type :=
| EvGetRules
| EvStateGet (name : string)
| EvCursorNext (name : string)
| EvStatePut (name : string)
| EvSend (name : string)
| EvLog (l : level) (fmt : string).

#[global] Instance level_eq_dec : EqDecision level.
Proof. solve_decision. Defined.
#[global] Instance event_eq_dec : EqDecision event.
Proof. solve_decision. Defined.

(** Limit for buffered detected metric results. *)
Definition bufferedMetricResultsLimit : Z := 10 * 1024.

Section Detector.
Context {C : Collaborators}.

#[local] Abbreviation Metric := (@Metric float64).
#[local] Abbreviation Config := (@Config float64).
#[local] Abbreviation Cursor := (@Cursor float64).

(** [storage.DB], restricted to the two stores the detector uses:
    [db.Admin] (whose [GetRules] returns the current rule set) and
    [db.State]. *)
Record DB := mkDB {
  db_Admin : RuleSet;
  db_State : StateDB
}.

(** [type Detector struct]; the pointers [db], [rc] and [hitCache] are
    replaced by the objects they point to. *)
Record Detector := mkDetector {
  cfg : Config;
  db : DB;
  rc : chan Metric;
  hitCache : cache;
  cursor : Cursor
}.

(** [func New(cfg, db) *Detector] *)
Definition New (cfg : Config) (db : DB) : Detector :=
  {| cfg := cfg;
     db := db;
     rc := make_chan Metric bufferedMetricResultsLimit;
     hitCache := newCache;
     cursor := mkCursor (Factor (Detector_ cfg)) (LeastC cfg) |}.

(** *** The monad: detector state plus the trace of actions *)

Record World := mkWorld {
  self : Detector;
  events : list event
}.

Definition M (A : Type) : Type := World -> A * World.

#[global] Instance M_ret : MRet M := fun _ a w => (a, w).
#[global] Instance M_bind : MBind M :=
  fun _ _ k c w => let (a, w') := c w in k a w'.

(** Field updates of the detector's mutable parts. *)
Definition setHitCache (c : cache) (d : Detector) : Detector :=
  {| cfg := cfg d; db := db d; rc := rc d; hitCache := c; cursor := cursor d |}.

Definition setStateDB (s : StateDB) (d : Detector) : Detector :=
  {| cfg := cfg d;
     db := {| db_Admin := db_Admin (db d); db_State := s |};
     rc := rc d; hitCache := hitCache d; cursor := cursor d |}.

Definition setChan (ch : chan Metric) (d : Detector) : Detector :=
  {| cfg := cfg d; db := db d; rc := ch; hitCache := hitCache d; cursor := cursor d |}.

(** The rule-administration subsystem replaces the current rule set; the
    detector itself never does. *)
Definition setAdmin (rs : RuleSet) (d : Detector) : Detector :=
  {| cfg := cfg d;
     db := {| db_Admin := rs; db_State := db_State (db d) |};
     rc := rc d; hitCache := hitCache d; cursor := cursor d |}.

Definition onSelf (f : Detector -> Detector) (w : World) : World :=
  {| self := f (self w); events := events w |}.

Definition addEvents (l : list event) (w : World) : World :=
  {| self := self w; events := events w ++ l |}.

Definition gets {A} (f : Detector -> A) : M A := fun w => (f (self w), w).

Definition emit (e : event) : M unit := fun w => (tt, addEvents [e] w).

Definition logf (l : level) (fmt : string) : M unit := emit (EvLog l fmt).

Definition modifyCache (f : cache -> cache) : M unit :=
  fun w => (tt, onSelf (fun d => setHitCache (f (hitCache d)) d) w).

Definition modifyState (s : StateDB) : M unit :=
  fun w => (tt, onSelf (setStateDB s) w).

Definition modifyChan (ch : chan Metric) : M unit :=
  fun w => (tt, onSelf (setChan ch) w).

(** [d.db.Admin.GetRules()] *)
Definition GetRules : M RuleSet :=
  emit EvGetRules;; gets (fun d => db_Admin (db d)).

(** *** match *)

(** The blacklist loop of [match]. [Some v] means the function returned
    [v] from inside the loop, [None] that the loop ran to its end. *)
Fixpoint scanBlackList (m : Metric) (patterns : list string) : M (option bool) :=
  match patterns with
  | [] => mret None
  | pattern :: rest =>
      if Match (Name m) pattern then
        modifyCache (fun c => setWLC c m None false);;
        logf Debug "%s hit black pattern %s";;
        mret (Some false)
      else scanBlackList m rest
  end.

(** The rules loop of [match], same convention. *)
Fixpoint scanRules (m : Metric) (rs : list Rule) : M (option bool) :=
  match rs with
  | [] => mret None
  | rule :: rest =>
      if Match (Name m) (Pattern rule) then
        modifyCache (fun c => setWLC c m (Some rule) true);;
        mret (Some true)
      else scanRules m rest
  end.

(** [func (d *Detector) match(m *models.Metric) bool] *)
Definition match_ (m : Metric) : M bool :=
  (* Check cache first. *)
  '(hit, v) ← gets (fun d => hitWhiteListCache (hitCache d) m);
  if hit : bool then mret v else
  (* Check blacklist. *)
  patterns ← gets (fun d => BlackList (Detector_ (cfg d)));
  r ← scanBlackList m patterns;
  match r with
  | Some v => mret v
  | None =>
      (* Check rules. *)
      rules ← GetRules;
      modifyCache (fun c => updateRules c rules);;
      r ← scanRules m (rs_rules rules);
      match r with
      | Some v => mret v
      | None =>
          (* No rules was hit. *)
          logf Debug "%s hit no rules";;
          mret false
      end
  end.

(** *** detect *)

(** [d.db.State.Get(m)] *)
Definition StateGet (m : Metric) : M (option State * option error) :=
  emit (EvStateGet (Name m));;
  gets (fun d => Get (db_State (db d)) m).

(** [d.cursor.Next(s, m)] *)
Definition CursorNext (s : option State) (m : Metric) : M (State * Metric) :=
  emit (EvCursorNext (Name m));;
  gets (fun d => Next (cursor d) s m).

(** [d.db.State.Put(m, n)] *)
Definition StatePut (m : Metric) (n : State) : M (option error) :=
  emit (EvStatePut (Name m));;
  st ← gets (fun d => db_State (db d));
  let (st', err) := Put st m n in
  modifyState st';;
  mret err.

(** [func (d *Detector) detect(m *models.Metric) error]. [m] is a pointer
    that [cursor.Next] writes through; the sample as it stands when
    [detect] returns is given back next to the error. *)
Definition detect (m : Metric) : M (Metric * option error) :=
  (* Get pervious state. *)
  '(s, err) ← StateGet m;
  if decide (err ≠ None ∧ err ≠ Some ErrNotFound) then mret (m, err) else
  (* Move state next. *)
  '(n, m') ← (if decide (err = Some ErrNotFound)
              then CursorNext None m
              else CursorNext s m);
  (* Put the next state to db. *)
  err' ← StatePut m' n;
  mret (m', err').

(** *** handle *)

(** The [select] with a [default] branch that closes the loop body of
    [handle]. *)
Definition enqueue (m : Metric) : M unit :=
  ch ← gets rc;
  match try_send ch m with
  | Some ch' => modifyChan ch';; emit (EvSend (Name m))
  | None =>
      logf Warn "buffered metric results channel is full, drop current metric.."
  end.

(** The body of the scanning loop of [handle], after the scanner error
    check, for one line of input. *)
Definition handleLine (line : string) : M unit :=
  match parseMetric line with
  | inl err => logf Error "parse '%s': %v, skipping.."
  | inr m =>
      b ← match_ m;
      if b : bool then
        '(m', err) ← detect m;
        match err with
        | Some _ => logf Error "detect: %v, skipping.."
        | None =>
            logf Debug "name=%s average=%.3f score=%.3f cost=%dμs";;
            enqueue m'
        end
      else mret tt
  end.

(** [for scanner.Scan() { ... }]: the scanner is the list of its
    successful [Scan] steps, each with the line it yields and the value
    of [scanner.Err()] at that point; a non-nil error breaks the loop. *)
Fixpoint handleLoop (scanner : list (string * option error)) : M unit :=
  match scanner with
  | [] => mret tt
  | (_, Some _) :: _ => logf Info "read conn: %v, closing it.."
  | (line, None) :: rest => handleLine line;; handleLoop rest
  end.

(** [func (d *Detector) handle(conn net.Conn)] *)
Definition handle (conn : list (string * option error)) : M unit :=
  logf Info "conn %s established";;
  handleLoop conn;;
  logf Info "conn %s disconnected".

End Detector.

Arguments World {C}.
Arguments Detector {C}.
Arguments DB {C}.

(** ** Vocabulary of the statements *)

Section Vocabulary.
Context {C : Collaborators}.

(** The name matches some pattern of the blacklist. *)
Definition blacklisted (blackList : list string) (name : string) : bool :=
  existsb (Match name) blackList.

(** The first rule, in rule-set order, whose pattern matches the name. *)
Definition firstMatch (rs : list Rule) (name : string) : option Rule :=
  List.find (fun r => Match name (Pattern r)) rs.

(** A start state: a fresh detector and an empty trace. *)
Definition start (cfg : @Config float64) (db : DB) : World :=
  {| self := New cfg db; events := [] |}.

(** The world after a cache update, as [match] performs it. *)
Definition recorded (m : @Metric float64) (r : option Rule) (v : bool) (w : World) : World :=
  onSelf (fun d => setHitCache (setWLC (hitCache d) m r v) d) w.

(** The world after [match] has fetched the rule set and validated the
    cache against it. *)
Definition validated (w : World) : World :=
  onSelf (fun d => setHitCache (updateRules (hitCache d) (db_Admin (db d))) d)
         (addEvents [EvGetRules] w).

End Vocabulary.

(** ** One concrete choice of collaborators

    Used to run the detector on explicit inputs: samples and states are
    integers, a pattern matches the names it is a prefix of, the scorer
    counts samples, the store is a finite map that can be switched to
    fail, and a line is the bare metric name. *)

Record demoStore := mkDemoStore {
  cells : gmap string Z;
  broken : bool
}.

Definition demoGet (st : demoStore) (m : @Metric Z) : option Z * option error :=
  if broken st then (None, Some (ErrOther "io"))
  else match cells st !! Name m with
       | Some s => (Some s, None)
       | None => (None, Some ErrNotFound)
       end.

Definition demoPut (st : demoStore) (m : @Metric Z) (n : Z) : demoStore * option error :=
  if broken st then (st, Some (ErrOther "io"))
  else ({| cells := <[Name m := n]> (cells st); broken := false |}, None).

Definition demoNext (c : Cursor Z) (s : option Z) (m : @Metric Z) : Z * @Metric Z :=
  let n := match s with Some k => k + 1 | None => 1 end in
  (n, {| Name := Name m; Stamp := Stamp m; Value := Value m;
         Score := 0; Average := Value m |}).

Definition demoParse (line : string) : error + @Metric Z :=
  if decide (line = "") then inl (ErrOther "empty")
  else inr {| Name := line; Stamp := 0; Value := 0; Score := 0; Average := 0 |}.

#[global] Instance demo : Collaborators := {|
  float64 := Z;
  Match := fun name pattern => String.prefix pattern name;
  State := Z;
  Next := demoNext;
  StateDB := demoStore;
  Get := demoGet;
  Put := demoPut;
  parseMetric := demoParse
|}.

Definition demoMetric (name : string) : @Metric Z :=
  {| Name := name; Stamp := 0; Value := 0; Score := 0; Average := 0 |}.

Definition demoCfg (blackList : list string) : @Config Z :=
  {| Detector_ := {| Port := 2015; Factor := 5; BlackList := blackList |};
     LeastC := 18 |}.

Definition demoDB (rs : RuleSet) : @DB demo :=
  {| db_Admin := rs; db_State := {| cells := ∅; broken := false |} |}.

Definition brokenDB (rs : RuleSet) : @DB demo :=
  {| db_Admin := rs; db_State := {| cells := ∅; broken := true |} |}.

(** Two rule sets: version 1 watches ["svc."] (twice, under two ids) and
    version 2 watches nothing. *)
Definition rules1 : RuleSet :=
  {| rs_version := 1;
     rs_rules := [mkRule 7 "db."; mkRule 8 "svc."; mkRule 9 "svc.lat"] |}.

Definition rules2 : RuleSet := {| rs_version := 2; rs_rules := [] |}.

(** A second configuration, differing from [demoCfg] in every field. *)
Definition demoCfgB : @Config Z :=
  {| Detector_ := {| Port := 80; Factor := 7; BlackList := ["tmp."; "dev."] |};
     LeastC := 1 |}.

(** Worlds the statements below are run on: a fresh detector under
    [rules1] with blacklist ["foo."]; the same after one call of [match]
    on "svc.latency"; that world after the rule set was replaced by
    [rules2]; a world whose results channel is full; and a fresh detector
    over a failing store. *)
Definition demoW0 : @World demo := start (demoCfg ["foo."]) (demoDB rules1).

Definition demoW1 : @World demo := snd (match_ (demoMetric "svc.latency") demoW0).

Definition demoW2 : @World demo := onSelf (setAdmin rules2) demoW1.

Definition demoFull : @World demo :=
  onSelf (setChan {| buf := [demoMetric "db.qps"]; cap := 1 |}) demoW1.

Definition demoBroken : @World demo := start (demoCfg ["foo."]) (brokenDB rules1).


(** ** Vocabulary of the statements about [handle] *)

(** The prefix of the line that the parse-error log line of [handle]
    prints: [if len(line) > 10 { line = line[:10] }]. Go's [len] and
    slicing count bytes, as [String.length] and [substring] do. *)
Definition truncateLine (line : string) : string :=
  if 10 <? Z.of_nat (String.length line) then substring 0 10 line else line.

(** The names of the samples sent on the results channel, in trace
    order. *)
Definition sends (l : list event) : list string :=
  flat_map (fun e => match e with EvSend name => [name] | _ => [] end) l.

Section HandlerVocabulary.
Context {C : Collaborators}.

(** [w'] comes after [w] in the life of one detector: configuration,
    cursor, rule set and channel capacity are the same, a buffer within
    its capacity is still within it, the trace and the channel buffer
    have only grown at their ends, and the samples added to the buffer
    are, in order, those the added trace sends. *)
Definition evolves (w w' : World) : Prop :=
  cfg (self w') = cfg (self w) /\
  cursor (self w') = cursor (self w) /\
  db_Admin (db (self w')) = db_Admin (db (self w)) /\
  cap (rc (self w')) = cap (rc (self w)) /\
  (Z.of_nat (length (buf (rc (self w)))) <= cap (rc (self w)) ->
   Z.of_nat (length (buf (rc (self w')))) <= cap (rc (self w'))) /\
  exists (l : list event) (sent : list (@Metric float64)),
    events w' = (events w ++ l)%list /\
    buf (rc (self w')) = (buf (rc (self w)) ++ sent)%list /\
    sends l = map Name sent.

(** A scored sample after another: the [select] of [handle] run on each
    sample of a list in turn. *)
Fixpoint enqueueAll (ms : list (@Metric float64)) : M unit :=
  match ms with
  | [] => mret tt
  | m :: rest => enqueue m;; enqueueAll rest
  end.

(** A scanner step that the loop of [handle] gets past without a trace
    in the detector: no read error, and a line that does not parse. *)
Definition malformed (step : string * option error) : Prop :=
  snd step = None /\ exists e, parseMetric (fst step) = inl e.

End HandlerVocabulary.

(** * Properties *)

Section DetectorProofs.
Context {C : Collaborators}.

#[local] Abbreviation Metric := (@Metric float64).

Ltac run_monad :=
  unfold mbind, mret, M_bind, M_ret, gets, emit, logf, modifyCache,
         modifyState, modifyChan; simpl.

(** ** The two loops of [match] *)

Lemma scanBlackList_none (m : Metric) (patterns : list string) (w : World) :
  blacklisted patterns (Name m) = false ->
  scanBlackList m patterns w = (None, w).
Proof.
  unfold blacklisted. induction patterns as [|p rest IH]; simpl; intros H.
  - reflexivity.
  - apply orb_false_iff in H as [Hp Hrest]. rewrite Hp. auto.
Qed.

Lemma scanBlackList_some (m : Metric) (patterns : list string) (w : World) :
  blacklisted patterns (Name m) = true ->
  scanBlackList m patterns w =
    (Some false,
     addEvents [EvLog Debug "%s hit black pattern %s"] (recorded m None false w)).
Proof.
  unfold blacklisted. induction patterns as [|p rest IH]; simpl; intros H.
  - discriminate.
  - destruct (Match (Name m) p) eqn:Hp.
    + reflexivity.
    + simpl in H. auto.
Qed.

Lemma scanRules_firstMatch (m : Metric) (rs : list Rule) (w : World) :
  scanRules m rs w =
    match firstMatch rs (Name m) with
    | Some r => (Some true, recorded m (Some r) true w)
    | None => (None, w)
    end.
Proof.
  unfold firstMatch. induction rs as [|r rest IH]; simpl.
  - reflexivity.
  - destruct (Match (Name m) (Pattern r)); [reflexivity | apply IH].
Qed.

(** ** The three paths of [match] *)

Lemma match_hit (m : Metric) (w : World) (e : cacheEntry) :
  wlc (hitCache (self w)) !! Name m = Some e ->
  match_ m w = (matched e, w).
Proof.
  intros H. unfold match_, hitWhiteListCache. run_monad. rewrite H. reflexivity.
Qed.

Lemma match_black (m : Metric) (w : World) :
  wlc (hitCache (self w)) !! Name m = None ->
  blacklisted (BlackList (Detector_ (cfg (self w)))) (Name m) = true ->
  match_ m w =
    (false,
     addEvents [EvLog Debug "%s hit black pattern %s"] (recorded m None false w)).
Proof.
  intros Hmiss Hbl. unfold match_, hitWhiteListCache. run_monad.
  rewrite Hmiss. rewrite (scanBlackList_some _ _ _ Hbl). reflexivity.
Qed.

Lemma match_rules (m : Metric) (w : World) :
  wlc (hitCache (self w)) !! Name m = None ->
  blacklisted (BlackList (Detector_ (cfg (self w)))) (Name m) = false ->
  match_ m w =
    match firstMatch (rs_rules (db_Admin (db (self w)))) (Name m) with
    | Some r => (true, recorded m (Some r) true (validated w))
    | None => (false, addEvents [EvLog Debug "%s hit no rules"] (validated w))
    end.
Proof.
  intros Hmiss Hbl. unfold match_, hitWhiteListCache, GetRules. run_monad.
  rewrite Hmiss. rewrite (scanBlackList_none _ _ _ Hbl).
  rewrite scanRules_firstMatch. fold (validated w).
  destruct (firstMatch _ _); reflexivity.
Qed.

Lemma match_no_rule (m : Metric) (w : World) :
  wlc (hitCache (self w)) !! Name m = None ->
  blacklisted (BlackList (Detector_ (cfg (self w)))) (Name m) = false ->
  firstMatch (rs_rules (db_Admin (db (self w)))) (Name m) = None ->
  match_ m w = (false, addEvents [EvLog Debug "%s hit no rules"] (validated w)).
Proof.
  intros Hmiss Hbl Hnone. rewrite (match_rules _ _ Hmiss Hbl), Hnone. reflexivity.
Qed.

(** Validation never adds an entry: what the cache holds afterwards it
    held before, under the token it was validated against. *)
Lemma updateRules_lookup (c : cache) (rs : RuleSet) (name : string) (e : cacheEntry) :
  wlc (updateRules c rs) !! name = Some e ->
  seen c = Some (rs_version rs) /\ wlc c !! name = Some e.
Proof.
  unfold updateRules. destruct (decide (seen c = Some (rs_version rs))); simpl.
  - auto.
  - rewrite lookup_empty. discriminate.
Qed.

Lemma updateRules_seen (c : cache) (rs : RuleSet) :
  seen (updateRules c rs) = Some (rs_version rs).
Proof.
  unfold updateRules. destruct (decide (seen c = Some (rs_version rs))); auto.
Qed.

Lemma firstMatch_split (rs : list Rule) (name : string) (r : Rule) :
  firstMatch rs name = Some r ->
  exists before after,
    rs = (before ++ r :: after)%list /\
    Match name (Pattern r) = true /\
    (forall r', In r' before -> Match name (Pattern r') = false).
Proof.
  unfold firstMatch. induction rs as [|x rest IH]; simpl; intros H.
  - discriminate.
  - destruct (Match name (Pattern x)) eqn:Hx.
    + injection H as <-. exists [], rest. simpl. tauto.
    + destruct (IH H) as (before & after & -> & Hr & Hbefore).
      exists (x :: before), after. simpl. split; [reflexivity|].
      split; [assumption|]. intros r' [<-|Hin]; auto.
Qed.

Lemma firstMatch_exists (rs : list Rule) (name : string) :
  (exists r, In r rs /\ Match name (Pattern r) = true) ->
  exists r, firstMatch rs name = Some r.
Proof.
  intros (r & Hin & Hr). unfold firstMatch.
  destruct (List.find _ rs) as [r0|] eqn:Hfind; [eauto|].
  pose proof (find_none _ _ Hfind r Hin) as Hno. simpl in Hno. congruence.
Qed.

(** C8: on a cache hit [match] returns the cached verdict and does
    nothing else: the whole world (cache, stores, channel, trace of
    collaborator calls and log lines) is as before, so no rule set is
    fetched, and the verdict is the same under every blacklist and rule
    set that come with the same cache entry. *)
Theorem match_cache_hit_frame (m : Metric) (w : World) (e : cacheEntry) :
  wlc (hitCache (self w)) !! Name m = Some e ->
  fst (match_ m w) = matched e /\
  snd (match_ m w) = w /\
  ~ In EvGetRules (skipn (length (events w)) (events (snd (match_ m w)))) /\
  (forall w', wlc (hitCache (self w')) !! Name m = Some e ->
              fst (match_ m w') = fst (match_ m w)).
Proof.
  intros H. rewrite (match_hit _ _ _ H). simpl.
  repeat split.
  - rewrite skipn_all. simpl. tauto.
  - intros w' H'. rewrite (match_hit _ _ _ H'). reflexivity.
Qed.

(** C4: a name that misses the cache and matches a blacklist pattern is
    rejected and the rejection is cached as (false, none); no other
    entry and no other part of the detector changes, the rule set is not
    fetched, and the outcome is the same whatever the rule set is. *)
Theorem match_blacklisted_rejected (m : Metric) (w : World) :
  wlc (hitCache (self w)) !! Name m = None ->
  blacklisted (BlackList (Detector_ (cfg (self w)))) (Name m) = true ->
  fst (match_ m w) = false /\
  wlc (hitCache (self (snd (match_ m w)))) !! Name m = Some (mkEntry false None) /\
  snd (match_ m w) =
    addEvents [EvLog Debug "%s hit black pattern %s"] (recorded m None false w) /\
  ~ In EvGetRules (skipn (length (events w)) (events (snd (match_ m w)))) /\
  (forall rs, match_ m (onSelf (setAdmin rs) w) =
              (false, onSelf (setAdmin rs) (snd (match_ m w)))).
Proof.
  intros Hmiss Hbl. rewrite (match_black _ _ Hmiss Hbl). simpl.
  split; [reflexivity|]. split; [apply lookup_insert_eq|].
  split; [reflexivity|]. split.
  - rewrite skipn_app, skipn_all, Nat.sub_diag. simpl. intros [H|[]]. discriminate.
  - intros rs. rewrite match_black; [reflexivity| exact Hmiss | exact Hbl].
Qed.

(** C5: a name that misses the cache, is not blacklisted and matches
    some rule of the fetched rule set is accepted, and the cached entry
    names the first rule in rule-set order whose pattern matches; any
    other detector holding the same rule set selects the same rule. *)
Theorem match_first_rule_wins (m : Metric) (w : World) :
  wlc (hitCache (self w)) !! Name m = None ->
  blacklisted (BlackList (Detector_ (cfg (self w)))) (Name m) = false ->
  (exists r, In r (rs_rules (db_Admin (db (self w)))) /\
             Match (Name m) (Pattern r) = true) ->
  exists before r after,
    rs_rules (db_Admin (db (self w))) = (before ++ r :: after)%list /\
    Match (Name m) (Pattern r) = true /\
    (forall r', In r' before -> Match (Name m) (Pattern r') = false) /\
    fst (match_ m w) = true /\
    wlc (hitCache (self (snd (match_ m w)))) !! Name m = Some (mkEntry true (Some r)) /\
    (forall w',
        rs_rules (db_Admin (db (self w'))) = rs_rules (db_Admin (db (self w))) ->
        wlc (hitCache (self w')) !! Name m = None ->
        blacklisted (BlackList (Detector_ (cfg (self w')))) (Name m) = false ->
        fst (match_ m w') = true /\
        wlc (hitCache (self (snd (match_ m w')))) !! Name m
          = Some (mkEntry true (Some r))).
Proof.
  intros Hmiss Hbl Hex.
  destruct (firstMatch_exists _ _ Hex) as [r Hr].
  destruct (firstMatch_split _ _ _ Hr) as (before & after & Hsplit & Hmatch & Hbefore).
  exists before, r, after.
  rewrite (match_rules _ _ Hmiss Hbl), Hr. simpl.
  do 3 (split; [assumption|]). split; [reflexivity|].
  split; [apply lookup_insert_eq|].
  intros w' Hrs Hmiss' Hbl'.
  rewrite (match_rules _ _ Hmiss' Hbl'), Hrs, Hr. simpl.
  split; [reflexivity | apply lookup_insert_eq].
Qed.

(** ** detect *)

Lemma detect_get_fails (m : Metric) (w : World) (s : option State) (e : error) :
  Get (db_State (db (self w))) m = (s, Some e) ->
  e <> ErrNotFound ->
  detect m w = ((m, Some e), addEvents [EvStateGet (Name m)] w).
Proof.
  intros Hget Hne. unfold detect, StateGet. run_monad. rewrite Hget.
  destruct (decide _) as [_|Hn]; [reflexivity|].
  exfalso. apply Hn. split; congruence.
Qed.

Lemma detect_scores (m m' : Metric) (w : World) (s : option State)
      (err err' : option error) (n : State) (st' : StateDB) :
  Get (db_State (db (self w))) m = (s, err) ->
  err = None \/ err = Some ErrNotFound ->
  Next (cursor (self w)) (if decide (err = Some ErrNotFound) then None else s) m
    = (n, m') ->
  Put (db_State (db (self w))) m' n = (st', err') ->
  detect m w =
    ((m', err'),
     onSelf (setStateDB st')
       (addEvents [EvStateGet (Name m); EvCursorNext (Name m); EvStatePut (Name m')] w)).
Proof.
  intros Hget Herr Hnext Hput. unfold detect, StateGet, StatePut, CursorNext.
  run_monad. rewrite Hget.
  destruct (decide (err <> None /\ err <> Some ErrNotFound)) as [[H1 H2]|_].
  { destruct Herr; contradiction. }
  destruct (decide (err = Some ErrNotFound)); simpl; rewrite Hnext; simpl;
    rewrite Hput; unfold addEvents, onSelf; simpl;
    rewrite <- !app_assoc; reflexivity.
Qed.

(** C7: [detect] fails exactly when [Get] fails with an error other
    than not-found, or [Get] passes and the [Put] of the next state
    fails; on not-found the next state is computed from no previous
    state (nil) and the outcome is that of [Put] alone. *)
Theorem detect_error_iff (m : Metric) (w : World) :
  let st := db_State (db (self w)) in
  let s := fst (Get st m) in
  let err := snd (Get st m) in
  let getFails := err <> None /\ err <> Some ErrNotFound in
  let n := fst (Next (cursor (self w)) (if decide (err = Some ErrNotFound) then None else s) m) in
  let m' := snd (Next (cursor (self w)) (if decide (err = Some ErrNotFound) then None else s) m) in
  (snd (fst (detect m w)) <> None <->
     getFails \/ (~ getFails /\ snd (Put st m' n) <> None)) /\
  (err = Some ErrNotFound ->
     (n, m') = Next (cursor (self w)) None m /\
     fst (detect m w) = (m', snd (Put st m' n))).
Proof.
  intros st s err getFails n m'.
  destruct (Get st m) as [s0 err0] eqn:Hget.
  assert (Hs : s = s0) by reflexivity.
  assert (He : err = err0) by reflexivity.
  clearbody s err. subst s0 err0.
  destruct (Next (cursor (self w)) (if decide (err = Some ErrNotFound) then None else s) m)
    as [n0 m0] eqn:Hnext.
  simpl in n, m'. subst n m'.
  destruct (Put st m0 n0) as [st' err'] eqn:Hput.
  destruct (decide (err <> None /\ err <> Some ErrNotFound)) as [Hf|Hf].
  - destruct err as [e|]; [|destruct Hf; congruence].
    assert (e <> ErrNotFound) by (destruct Hf; congruence).
    rewrite (detect_get_fails m w s e Hget) by assumption. simpl.
    split; [|congruence].
    split; [intros _; left; exact Hf | intros _; discriminate].
  - assert (Hok : err = None \/ err = Some ErrNotFound).
    { destruct err as [e|]; [|auto]. destruct (decide (e = ErrNotFound)) as [->|Hne]; [auto|].
      exfalso. apply Hf. split; congruence. }
    rewrite (detect_scores m m0 w s err err' n0 st' Hget Hok Hnext Hput). simpl.
    split.
    + split; [intros H; right; auto | intros [H|[_ H]]; [contradiction | exact H]].
    + intros ->. rewrite decide_True in Hnext by reflexivity.
      rewrite Hnext. auto.
Qed.

(** C9: when [Get] fails with an error other than not-found, [detect]
    returns that very error; the only thing it has done is the [Get]
    call: [cursor.Next] and [Put] are not called and the store, the
    cache, the channel and the sample are untouched. *)
Theorem detect_get_error_frame (m : Metric) (w : World) (s : option State) (e : error) :
  Get (db_State (db (self w))) m = (s, Some e) ->
  e <> ErrNotFound ->
  fst (detect m w) = (m, Some e) /\
  self (snd (detect m w)) = self w /\
  db_State (db (self (snd (detect m w)))) = db_State (db (self w)) /\
  events (snd (detect m w)) = (events w ++ [EvStateGet (Name m)])%list /\
  (forall name, ~ In (EvCursorNext name) (skipn (length (events w)) (events (snd (detect m w)))) /\
                ~ In (EvStatePut name) (skipn (length (events w)) (events (snd (detect m w))))).
Proof.
  intros Hget Hne. rewrite (detect_get_fails m w s e Hget Hne). simpl.
  repeat split; rewrite skipn_app, skipn_all, Nat.sub_diag; simpl;
    intros [H|[]]; discriminate.
Qed.

(** ** The result buffer *)

Lemma enqueue_room (m : Metric) (w : World) :
  Z.of_nat (length (buf (rc (self w)))) < cap (rc (self w)) ->
  enqueue m w =
    (tt, addEvents [EvSend (Name m)]
           (onSelf (setChan {| buf := buf (rc (self w)) ++ [m];
                               cap := cap (rc (self w)) |}) w)).
Proof.
  intros H. unfold enqueue, try_send. run_monad.
  apply Z.ltb_lt in H. rewrite H. reflexivity.
Qed.

Lemma enqueue_full (m : Metric) (w : World) :
  cap (rc (self w)) <= Z.of_nat (length (buf (rc (self w)))) ->
  enqueue m w =
    (tt, addEvents
           [EvLog Warn "buffered metric results channel is full, drop current metric.."]
           w).
Proof.
  intros H. unfold enqueue, try_send. run_monad.
  apply Z.ltb_ge in H. rewrite H. reflexivity.
Qed.

(** C6: the enqueue of a scored sample always completes (it is a total
    step with exactly two outcomes). With room in the buffer the sample
    is appended behind the queued ones and nothing else changes; at
    capacity the sample is discarded, the detector (buffer included) is
    unchanged, and the drop is reported by a warning log line. *)
Theorem enqueue_never_blocks (m : Metric) (w : World) :
  let ch := rc (self w) in
  let w' := snd (enqueue m w) in
  (Z.of_nat (length (buf ch)) < cap ch ->
     buf (rc (self w')) = (buf ch ++ [m])%list /\
     cap (rc (self w')) = cap ch /\
     self w' = setChan (rc (self w')) (self w) /\
     events w' = (events w ++ [EvSend (Name m)])%list) /\
  (cap ch <= Z.of_nat (length (buf ch)) ->
     self w' = self w /\
     rc (self w') = ch /\
     events w' =
       (events w ++
        [EvLog Warn "buffered metric results channel is full, drop current metric.."])%list) /\
  (Z.of_nat (length (buf ch)) < cap ch \/ cap ch <= Z.of_nat (length (buf ch))).
Proof.
  intros ch w'. subst ch w'. split; [|split].
  - intros H. rewrite (enqueue_room m w H). simpl. auto.
  - intros H. rewrite (enqueue_full m w H). simpl. auto.
  - lia.
Qed.

(** C3 (as the code has it): the results channel created by [New] is
    empty and its capacity is the constant [bufferedMetricResultsLimit]
    = 10240, whatever the configuration and the database. *)
Theorem New_capacity_constant (cfg : @Config float64) (db : DB) :
  cap (rc (New cfg db)) = 10240 /\ buf (rc (New cfg db)) = [].
Proof. split; reflexivity. Qed.

(** ** handle *)

Lemma handleLine_scored (line : string) (m m' : Metric) (w w1 w2 : World) :
  parseMetric line = inr m ->
  match_ m w = (true, w1) ->
  detect m w1 = ((m', None), w2) ->
  handleLine line w =
    enqueue m'
      (addEvents [EvLog Debug "name=%s average=%.3f score=%.3f cost=%dμs"] w2).
Proof.
  intros Hparse Hmatch Hdetect. unfold handleLine. rewrite Hparse.
  run_monad. rewrite Hmatch, Hdetect. reflexivity.
Qed.

(** What [detect] leaves behind when it returns nil: a [Get], a
    [cursor.Next] and a successful [Put], in this order, and the store
    that this [Put] produced. *)
Lemma detect_ok_inv (m m' : Metric) (w w' : World) :
  detect m w = ((m', None), w') ->
  exists (s : option State) (n : State),
    Next (cursor (self w)) s m = (n, m') /\
    Put (db_State (db (self w))) m' n = (db_State (db (self w')), None) /\
    self w' = setStateDB (db_State (db (self w'))) (self w) /\
    events w' =
      (events w ++ [EvStateGet (Name m); EvCursorNext (Name m); EvStatePut (Name m')])%list.
Proof.
  intros Hd.
  destruct (Get (db_State (db (self w))) m) as [s err] eqn:Hget.
  destruct (decide (err <> None /\ err <> Some ErrNotFound)) as [Hf|Hf].
  - destruct err as [e|]; [|destruct Hf; congruence].
    assert (e <> ErrNotFound) by (destruct Hf; congruence).
    rewrite (detect_get_fails m w s e Hget) in Hd by assumption. discriminate.
  - assert (Hok : err = None \/ err = Some ErrNotFound).
    { destruct err as [e|]; [|auto].
      destruct (decide (e = ErrNotFound)) as [->|Hne]; [auto|].
      exfalso. apply Hf. split; congruence. }
    destruct (Next (cursor (self w)) (if decide (err = Some ErrNotFound) then None else s) m)
      as [n0 m0] eqn:Hnext.
    destruct (Put (db_State (db (self w))) m0 n0) as [st' err'] eqn:Hput.
    rewrite (detect_scores m m0 w s err err' n0 st' Hget Hok Hnext Hput) in Hd.
    injection Hd as -> -> <-. simpl.
    eexists _, n0. split; [exact Hnext|]. split; [exact Hput|].
    split; reflexivity.
Qed.

(** C10: for a parsed, matched sample on which [detect] returns nil,
    the next baseline state has been written by a successful [Put]
    before the enqueue is attempted, and the store after the whole loop
    body is the store that this [Put] produced, whether the sample was
    queued or dropped because the buffer was full. *)
Theorem handleLine_put_before_enqueue
        (line : string) (m m' : Metric) (w w1 w2 : World) :
  parseMetric line = inr m ->
  match_ m w = (true, w1) ->
  detect m w1 = ((m', None), w2) ->
  let w3 := snd (handleLine line w) in
  let attempt :=
    if Z.of_nat (length (buf (rc (self w1)))) <? cap (rc (self w1))
    then EvSend (Name m')
    else EvLog Warn "buffered metric results channel is full, drop current metric.." in
  exists (s : option State) (n : State),
    Next (cursor (self w1)) s m = (n, m') /\
    Put (db_State (db (self w1))) m' n = (db_State (db (self w3)), None) /\
    db_State (db (self w3)) = db_State (db (self w2)) /\
    events w3 =
      (events w1 ++
       [EvStateGet (Name m); EvCursorNext (Name m); EvStatePut (Name m');
        EvLog Debug "name=%s average=%.3f score=%.3f cost=%dμs"; attempt])%list.
Proof.
  intros Hparse Hmatch Hdetect w3 attempt. subst w3 attempt.
  rewrite (handleLine_scored line m m' w w1 w2 Hparse Hmatch Hdetect).
  destruct (detect_ok_inv m m' w1 w2 Hdetect) as (s & n & Hnext & Hput & Hself & Hev).
  assert (Hrc : rc (self w2) = rc (self w1)) by (rewrite Hself; reflexivity).
  exists s, n. split; [exact Hnext|].
  set (w2' := addEvents _ w2).
  destruct (Z.ltb_spec (Z.of_nat (length (buf (rc (self w1))))) (cap (rc (self w1))))
    as [Hroom|Hfull].
  - rewrite (enqueue_room m' w2') by (subst w2'; simpl; rewrite Hrc; exact Hroom).
    subst w2'. simpl. rewrite Hev, <- !app_assoc. simpl. auto.
  - rewrite (enqueue_full m' w2') by (subst w2'; simpl; rewrite Hrc; exact Hfull).
    subst w2'. simpl. rewrite Hev, <- !app_assoc. simpl. auto.
Qed.

End DetectorProofs.

(** ** The statements at explicit inputs *)

(** C1, the claim as worded fails: "svc.latency" is cached as matched
    while the rule set has version 1; the rule set is then replaced by
    version 2, which matches nothing. The next call of [match] answers
    from the cache: it returns true and changes nothing (so it neither
    fetches nor compares the rule set), the cache still carries token 1,
    and a detector that validates against version 2 answers false. *)
Lemma match_returns_stale_verdict :
  wlc (hitCache (self demoW2)) !! "svc.latency"
    = Some (mkEntry true (Some (mkRule 8 "svc."))) /\
  seen (hitCache (self demoW2)) = Some 1 /\
  rs_version (db_Admin (db (self demoW2))) = 2 /\
  match_ (demoMetric "svc.latency") demoW2 = (true, demoW2) /\
  fst (match_ (demoMetric "svc.latency") (start (demoCfg ["foo."]) (demoDB rules2)))
    = false.
Proof. repeat split; vm_compute; reflexivity. Qed.

(** C2, the claim as worded fails: for a name that misses the cache, is
    not blacklisted and matches no rule, [match] returns false and the
    cache holds no entry for the name afterwards, where the claim has
    the entry (false, none); the blacklisted name "foo.bar" does get that
    entry. The same happens with an empty blacklist and an empty rule
    set, where no matching semantics is involved. *)
Lemma match_unmatched_not_recorded :
  wlc (hitCache (self demoW0)) !! "other" = None /\
  blacklisted ["foo."] "other" = false /\
  firstMatch (rs_rules rules1) "other" = None /\
  fst (match_ (demoMetric "other") demoW0) = false /\
  wlc (hitCache (self (snd (match_ (demoMetric "other") demoW0)))) !! "other" = None /\
  wlc (hitCache (self (snd (match_ (demoMetric "foo.bar") demoW0)))) !! "foo.bar"
    = Some (mkEntry false None) /\
  fst (match_ (demoMetric "other") (start (demoCfg []) (demoDB rules2))) = false /\
  wlc (hitCache (self (snd (match_ (demoMetric "other")
                                   (start (demoCfg []) (demoDB rules2)))))) !! "other"
    = None.
Proof. repeat split; vm_compute; reflexivity. Qed.

(** C3, the claim as worded fails: two configurations that differ in
    every field get the same capacity, and no pair of configurations
    gets different ones. *)
Lemma New_capacity_ignores_config :
  cap (rc (New (demoCfg ["foo."]) (demoDB rules1)))
    = cap (rc (New demoCfgB (demoDB rules2))) /\
  ~ (exists (cfg1 cfg2 : @Config Z) (db1 db2 : @DB demo),
        cap (rc (New cfg1 db1)) <> cap (rc (New cfg2 db2))).
Proof.
  split; [reflexivity|]. intros (cfg1 & cfg2 & db1 & db2 & H).
  apply H. reflexivity.
Qed.

Lemma match_blacklisted_rejected_witness :
  wlc (hitCache (self demoW0)) !! "foo.bar" = None /\
  blacklisted ["foo."] "foo.bar" = true /\
  fst (match_ (demoMetric "foo.bar") demoW0) = false /\
  wlc (hitCache (self (snd (match_ (demoMetric "foo.bar") demoW0)))) !! "foo.bar"
    = Some (mkEntry false None).
Proof.
  assert (Hmiss : wlc (hitCache (self demoW0)) !! Name (demoMetric "foo.bar") = None)
    by reflexivity.
  assert (Hbl : blacklisted (BlackList (Detector_ (cfg (self demoW0))))
                            (Name (demoMetric "foo.bar")) = true)
    by reflexivity.
  destruct (match_blacklisted_rejected (C:=demo) (demoMetric "foo.bar") demoW0 Hmiss Hbl)
    as (Hv & Hrec & _).
  split; [exact Hmiss|]. split; [exact Hbl|]. split; [exact Hv | exact Hrec].
Defined.

Lemma match_first_rule_wins_witness :
  wlc (hitCache (self demoW0)) !! "svc.latency" = None /\
  blacklisted ["foo."] "svc.latency" = false /\
  exists before r after,
    rs_rules rules1 = (before ++ r :: after)%list /\
    fst (match_ (demoMetric "svc.latency") demoW0) = true /\
    wlc (hitCache (self demoW1)) !! "svc.latency" = Some (mkEntry true (Some r)).
Proof.
  assert (Hmiss : wlc (hitCache (self demoW0)) !! Name (demoMetric "svc.latency") = None)
    by reflexivity.
  assert (Hbl : blacklisted (BlackList (Detector_ (cfg (self demoW0))))
                            (Name (demoMetric "svc.latency")) = false)
    by reflexivity.
  assert (Hex : exists r, In r (rs_rules (db_Admin (db (self demoW0)))) /\
                          Match (Name (demoMetric "svc.latency")) (Pattern r) = true).
  { exists (mkRule 9 "svc.lat"). split; [simpl; tauto | reflexivity]. }
  destruct (match_first_rule_wins (C:=demo) (demoMetric "svc.latency") demoW0 Hmiss Hbl Hex)
    as (before & r & after & Hsplit & _ & _ & Hv & Hrec & _).
  split; [exact Hmiss|]. split; [exact Hbl|].
  exists before, r, after. split; [exact Hsplit|]. split; [exact Hv | exact Hrec].
Defined.

Lemma enqueue_never_blocks_witness :
  (Z.of_nat (length (buf (rc (self demoW1)))) < cap (rc (self demoW1)) /\
   buf (rc (self (snd (enqueue (demoMetric "svc.latency") demoW1))))
     = [demoMetric "svc.latency"]) /\
  (cap (rc (self demoFull)) <= Z.of_nat (length (buf (rc (self demoFull)))) /\
   rc (self (snd (enqueue (demoMetric "svc.latency") demoFull))) = rc (self demoFull)).
Proof.
  destruct (enqueue_never_blocks (C:=demo) (demoMetric "svc.latency") demoW1) as (Hroom & _ & _).
  destruct (enqueue_never_blocks (C:=demo) (demoMetric "svc.latency") demoFull) as (_ & Hfull & _).
  assert (H1 : Z.of_nat (length (buf (rc (self demoW1)))) < cap (rc (self demoW1)))
    by (vm_compute; reflexivity).
  assert (H2 : cap (rc (self demoFull)) <= Z.of_nat (length (buf (rc (self demoFull)))))
    by (vm_compute; discriminate).
  split.
  - split; [exact H1|]. exact (proj1 (Hroom H1)).
  - split; [exact H2|]. exact (proj1 (proj2 (Hfull H2))).
Defined.

Lemma detect_error_iff_witness :
  snd (fst (detect (demoMetric "svc.latency") demoBroken)) <> None /\
  snd (fst (detect (demoMetric "svc.latency") demoW1)) = None.
Proof.
  destruct (detect_error_iff (C:=demo) (demoMetric "svc.latency") demoBroken) as [Hiff _].
  destruct (detect_error_iff (C:=demo) (demoMetric "svc.latency") demoW1) as [_ Hnf].
  split.
  - apply Hiff. left. split; discriminate.
  - rewrite (proj2 (Hnf eq_refl)). reflexivity.
Defined.

Lemma match_cache_hit_frame_witness :
  wlc (hitCache (self demoW2)) !! "svc.latency"
    = Some (mkEntry true (Some (mkRule 8 "svc."))) /\
  fst (match_ (demoMetric "svc.latency") demoW2) = true /\
  snd (match_ (demoMetric "svc.latency") demoW2) = demoW2.
Proof.
  assert (H : wlc (hitCache (self demoW2)) !! Name (demoMetric "svc.latency")
              = Some (mkEntry true (Some (mkRule 8 "svc."))))
    by reflexivity.
  destruct (match_cache_hit_frame (C:=demo) (demoMetric "svc.latency") demoW2 _ H)
    as (Hv & Hw & _).
  split; [exact H|]. split; [exact Hv | exact Hw].
Defined.

Lemma detect_get_error_frame_witness :
  Get (db_State (db (self demoBroken))) (demoMetric "svc.latency")
    = (None, Some (ErrOther "io")) /\
  ErrOther "io" <> ErrNotFound /\
  fst (detect (demoMetric "svc.latency") demoBroken)
    = (demoMetric "svc.latency", Some (ErrOther "io")) /\
  db_State (db (self (snd (detect (demoMetric "svc.latency") demoBroken))))
    = db_State (db (self demoBroken)).
Proof.
  assert (Hget : Get (db_State (db (self demoBroken))) (demoMetric "svc.latency")
                 = (None, Some (ErrOther "io")))
    by reflexivity.
  assert (Hne : ErrOther "io" <> ErrNotFound) by discriminate.
  destruct (detect_get_error_frame (C:=demo) (demoMetric "svc.latency") demoBroken None
              (ErrOther "io") Hget Hne) as (Hret & _ & Hst & _).
  split; [exact Hget|]. split; [exact Hne|]. split; [exact Hret | exact Hst].
Defined.

Lemma handleLine_put_before_enqueue_witness :
  parseMetric "svc.latency" = inr (demoMetric "svc.latency") /\
  match_ (demoMetric "svc.latency") demoW0 = (true, demoW1) /\
  fst (detect (demoMetric "svc.latency") demoW1) = (demoMetric "svc.latency", None) /\
  cells (db_State (db (self (snd (handleLine "svc.latency" demoW0))))) !! "svc.latency"
    = Some 1.
Proof.
  assert (Hparse : parseMetric "svc.latency" = inr (demoMetric "svc.latency"))
    by reflexivity.
  assert (Hmatch : match_ (demoMetric "svc.latency") demoW0 = (true, demoW1))
    by reflexivity.
  assert (Hdetect : detect (demoMetric "svc.latency") demoW1
                    = ((demoMetric "svc.latency", None),
                       snd (detect (demoMetric "svc.latency") demoW1)))
    by reflexivity.
  destruct (handleLine_put_before_enqueue (C:=demo) _ _ _ _ _ _ Hparse Hmatch Hdetect)
    as (s & n & _ & _ & Hst & _).
  split; [exact Hparse|]. split; [exact Hmatch|].
  split; [rewrite Hdetect; reflexivity|].
  rewrite Hst. reflexivity.
Defined.

(** * Further properties of [match], [detect] and [handle] *)

Section MoreProofs.
Context {C : Collaborators}.

#[local] Abbreviation Metric := (@Metric float64).

Ltac unfold_monad :=
  unfold mbind, mret, M_bind, M_ret, gets, emit, logf, modifyCache,
         modifyState, modifyChan; simpl.

Lemma setHitCache_same (d : Detector) : setHitCache (hitCache d) d = d.
Proof. destruct d. reflexivity. Qed.

Lemma firstMatch_none_iff (rs : list Rule) (name : string) :
  firstMatch rs name = None <->
  (forall r, In r rs -> Match name (Pattern r) = false).
Proof.
  unfold firstMatch. split.
  - intros H r Hin. exact (find_none _ _ H r Hin).
  - induction rs as [|x rest IH]; simpl; intros H; [reflexivity|].
    rewrite (H x) by auto. apply IH. intros r Hin. apply H. auto.
Qed.

(** X1: whatever path it takes, [match] changes nothing of the detector
    but the hit cache, and all it does to the outside is fetch the rule
    set and write debug log lines: no store call, no send. *)
Theorem match_changes_only_cache (m : Metric) (w : World) :
  self (snd (match_ m w))
    = setHitCache (hitCache (self (snd (match_ m w)))) (self w) /\
  exists l,
    events (snd (match_ m w)) = (events w ++ l)%list /\
    (forall e, In e l -> e = EvGetRules \/ exists fmt, e = EvLog Debug fmt).
Proof.
  destruct (wlc (hitCache (self w)) !! Name m) as [e|] eqn:Hlook.
  { rewrite (match_hit _ _ _ Hlook). simpl. split.
    - symmetry. apply setHitCache_same.
    - exists []. rewrite app_nil_r. split; [reflexivity | intros ? []]. }
  destruct (blacklisted (BlackList (Detector_ (cfg (self w)))) (Name m)) eqn:Hbl.
  { rewrite (match_black _ _ Hlook Hbl). simpl. split; [reflexivity|].
    eexists. split; [reflexivity|]. intros e [<-|[]]. right. eauto. }
  rewrite (match_rules _ _ Hlook Hbl).
  destruct (firstMatch _ _) as [r|]; simpl; (split; [reflexivity|]).
  - eexists. split; [reflexivity|]. intros e [<-|[]]. auto.
  - rewrite <- app_assoc. eexists. split; [reflexivity|].
    intros e [<-|[<-|[]]]; [auto | right; eauto].
Qed.

(** X2: on a cache miss the verdict of [match] is true exactly when the
    name matches no blacklist pattern and some rule of the current rule
    set matches it. *)
Theorem match_miss_verdict_iff (m : Metric) (w : World) :
  wlc (hitCache (self w)) !! Name m = None ->
  (fst (match_ m w) = true <->
   blacklisted (BlackList (Detector_ (cfg (self w)))) (Name m) = false /\
   exists r, In r (rs_rules (db_Admin (db (self w)))) /\
             Match (Name m) (Pattern r) = true).
Proof.
  intros Hlook.
  destruct (blacklisted (BlackList (Detector_ (cfg (self w)))) (Name m)) eqn:Hbl.
  { rewrite (match_black _ _ Hlook Hbl). simpl.
    split; [discriminate | intros [? _]; discriminate]. }
  rewrite (match_rules _ _ Hlook Hbl).
  destruct (firstMatch _ _) as [r|] eqn:Hr; simpl.
  - split; [intros _ | reflexivity]. split; [reflexivity|].
    destruct (firstMatch_split _ _ _ Hr) as (before & after & Hsplit & Hm & _).
    exists r. split; [|exact Hm]. rewrite Hsplit. apply in_or_app. simpl. auto.
  - split; [discriminate|]. intros [_ (r & Hin & Hm)].
    rewrite (proj1 (firstMatch_none_iff _ _) Hr r Hin) in Hm. discriminate.
Qed.

(** X3: calling [match] again on the same sample gives the same
    verdict; and when the first call left an entry for the name, the
    second call changes nothing at all. *)
Theorem match_twice_same_verdict (m : Metric) (w : World) :
  fst (match_ m (snd (match_ m w))) = fst (match_ m w) /\
  (is_Some (wlc (hitCache (self (snd (match_ m w)))) !! Name m) ->
   snd (match_ m (snd (match_ m w))) = snd (match_ m w)).
Proof.
  destruct (wlc (hitCache (self w)) !! Name m) as [e|] eqn:Hlook.
  { rewrite (match_hit _ _ _ Hlook). simpl. rewrite (match_hit _ _ _ Hlook). auto. }
  destruct (blacklisted (BlackList (Detector_ (cfg (self w)))) (Name m)) eqn:Hbl.
  { rewrite (match_black _ _ Hlook Hbl). simpl.
    rewrite (match_hit _ _ (mkEntry false None)) by (simpl; apply lookup_insert_eq).
    auto. }
  rewrite (match_rules _ _ Hlook Hbl).
  destruct (firstMatch _ _) as [r|] eqn:Hr; simpl.
  - rewrite (match_hit _ _ (mkEntry true (Some r))) by (simpl; apply lookup_insert_eq).
    auto.
  - assert (Hlook' : wlc (updateRules (hitCache (self w)) (db_Admin (db (self w))))
                       !! Name m = None).
    { destruct (wlc (updateRules _ _) !! Name m) as [e|] eqn:He; [|reflexivity].
      apply updateRules_lookup in He as [_ He]. congruence. }
    rewrite match_rules by (simpl; assumption). simpl. rewrite Hr. simpl.
    split; [reflexivity|]. rewrite Hlook'. intros [? ?]. discriminate.
Qed.

(** X4: a name that misses the cache, is not blacklisted and matches no
    rule is answered false after the rule set was fetched once and the
    cache validated against it; the cache gets no entry for the name,
    so the next sample of that name takes the same path. *)
Theorem match_no_rule_uncached (m : Metric) (w : World) :
  wlc (hitCache (self w)) !! Name m = None ->
  blacklisted (BlackList (Detector_ (cfg (self w)))) (Name m) = false ->
  (forall r, In r (rs_rules (db_Admin (db (self w)))) ->
             Match (Name m) (Pattern r) = false) ->
  fst (match_ m w) = false /\
  wlc (hitCache (self (snd (match_ m w)))) !! Name m = None /\
  hitCache (self (snd (match_ m w)))
    = updateRules (hitCache (self w)) (db_Admin (db (self w))) /\
  events (snd (match_ m w))
    = (events w ++ [EvGetRules; EvLog Debug "%s hit no rules"])%list.
Proof.
  intros Hlook Hbl Hnone. apply firstMatch_none_iff in Hnone.
  rewrite (match_no_rule _ _ Hlook Hbl Hnone). simpl.
  split; [reflexivity|]. split; [|split; [reflexivity|]].
  - destruct (wlc (updateRules _ _) !! Name m) as [e|] eqn:He; [|reflexivity].
    apply updateRules_lookup in He as [_ He]. congruence.
  - rewrite <- app_assoc. reflexivity.
Qed.

(** X5: [detect] changes nothing of the detector but the state store.
    Either it stops after the [Get] with an error and the store as it
    was, or it performs exactly [Get], [cursor.Next], [Put] in this
    order and returns what [Put] returned. *)
Theorem detect_changes_only_store (m : Metric) (w : World) :
  self (snd (detect m w))
    = setStateDB (db_State (db (self (snd (detect m w))))) (self w) /\
  ((snd (fst (detect m w)) <> None /\
    fst (fst (detect m w)) = m /\
    db_State (db (self (snd (detect m w)))) = db_State (db (self w)) /\
    events (snd (detect m w)) = (events w ++ [EvStateGet (Name m)])%list)
   \/
   (exists s n,
      Next (cursor (self w)) s m = (n, fst (fst (detect m w))) /\
      Put (db_State (db (self w))) (fst (fst (detect m w))) n
        = (db_State (db (self (snd (detect m w)))), snd (fst (detect m w))) /\
      events (snd (detect m w))
        = (events w ++ [EvStateGet (Name m); EvCursorNext (Name m);
                        EvStatePut (Name (fst (fst (detect m w))))])%list)).
Proof.
  destruct (Get (db_State (db (self w))) m) as [s err] eqn:Hget.
  destruct (decide (err <> None /\ err <> Some ErrNotFound)) as [Hf|Hf].
  - destruct err as [e|]; [|destruct Hf; congruence].
    assert (e <> ErrNotFound) by (destruct Hf; congruence).
    rewrite (detect_get_fails m w s e Hget) by assumption. simpl. split.
    + destruct (self w) as [? [? ?] ? ? ?]. reflexivity.
    + left. repeat split. discriminate.
  - assert (Hok : err = None \/ err = Some ErrNotFound).
    { destruct err as [e|]; [|auto].
      destruct (decide (e = ErrNotFound)) as [->|Hne]; [auto|].
      exfalso. apply Hf. split; congruence. }
    destruct (Next (cursor (self w)) (if decide (err = Some ErrNotFound) then None else s) m)
      as [n0 m0] eqn:Hnext.
    destruct (Put (db_State (db (self w))) m0 n0) as [st' err'] eqn:Hput.
    rewrite (detect_scores m m0 w s err err' n0 st' Hget Hok Hnext Hput). simpl.
    split; [reflexivity|]. right. eexists _, n0.
    split; [exact Hnext|]. split; [exact Hput|]. reflexivity.
Qed.

Lemma match_changes_rc (m : Metric) (w : World) :
  rc (self (snd (match_ m w))) = rc (self w).
Proof.
  destruct (wlc (hitCache (self w)) !! Name m) as [e|] eqn:Hlook.
  { rewrite (match_hit _ _ _ Hlook). reflexivity. }
  destruct (blacklisted (BlackList (Detector_ (cfg (self w)))) (Name m)) eqn:Hbl.
  { rewrite (match_black _ _ Hlook Hbl). reflexivity. }
  rewrite (match_rules _ _ Hlook Hbl). destruct (firstMatch _ _); reflexivity.
Qed.

Lemma match_changes_store (m : Metric) (w : World) :
  db_State (db (self (snd (match_ m w)))) = db_State (db (self w)).
Proof.
  destruct (wlc (hitCache (self w)) !! Name m) as [e|] eqn:Hlook.
  { rewrite (match_hit _ _ _ Hlook). reflexivity. }
  destruct (blacklisted (BlackList (Detector_ (cfg (self w)))) (Name m)) eqn:Hbl.
  { rewrite (match_black _ _ Hlook Hbl). reflexivity. }
  rewrite (match_rules _ _ Hlook Hbl). destruct (firstMatch _ _); reflexivity.
Qed.

Lemma detect_changes_rc (m : Metric) (w : World) :
  rc (self (snd (detect m w))) = rc (self w).
Proof.
  destruct (Get (db_State (db (self w))) m) as [s err] eqn:Hget.
  destruct (decide (err <> None /\ err <> Some ErrNotFound)) as [Hf|Hf].
  - destruct err as [e|]; [|destruct Hf; congruence].
    assert (e <> ErrNotFound) by (destruct Hf; congruence).
    rewrite (detect_get_fails m w s e Hget) by assumption. reflexivity.
  - assert (Hok : err = None \/ err = Some ErrNotFound).
    { destruct err as [e|]; [|auto].
      destruct (decide (e = ErrNotFound)) as [->|Hne]; [auto|].
      exfalso. apply Hf. split; congruence. }
    destruct (Next (cursor (self w)) (if decide (err = Some ErrNotFound) then None else s) m)
      as [n0 m0] eqn:Hnext.
    destruct (Put (db_State (db (self w))) m0 n0) as [st' err'] eqn:Hput.
    rewrite (detect_scores m m0 w s err err' n0 st' Hget Hok Hnext Hput). reflexivity.
Qed.

(** ** One step after another: [evolves] *)

Lemma sends_app (l1 l2 : list event) : sends (l1 ++ l2) = (sends l1 ++ sends l2)%list.
Proof. unfold sends. apply flat_map_app. Qed.

Lemma evolves_refl (w : World) : evolves w w.
Proof.
  unfold evolves. do 4 (split; [reflexivity|]). split; [auto|].
  exists [], []. rewrite !app_nil_r. auto.
Qed.

Lemma evolves_trans (w1 w2 w3 : World) :
  evolves w1 w2 -> evolves w2 w3 -> evolves w1 w3.
Proof.
  intros (Hc1 & Hk1 & Ha1 & Hp1 & Hb1 & l1 & s1 & He1 & Hq1 & Hs1)
         (Hc2 & Hk2 & Ha2 & Hp2 & Hb2 & l2 & s2 & He2 & Hq2 & Hs2).
  unfold evolves.
  split; [congruence|]. split; [congruence|]. split; [congruence|].
  split; [congruence|]. split; [auto|].
  exists (l1 ++ l2)%list, (s1 ++ s2)%list.
  rewrite He2, He1, Hq2, Hq1, sends_app, map_app, Hs1, Hs2, <- !app_assoc. auto.
Qed.

(** A step that leaves configuration, cursor, rule set and channel alone
    and sends nothing. *)
Lemma evolves_quiet (w w' : World) (l : list event) :
  cfg (self w') = cfg (self w) ->
  cursor (self w') = cursor (self w) ->
  db_Admin (db (self w')) = db_Admin (db (self w)) ->
  rc (self w') = rc (self w) ->
  events w' = (events w ++ l)%list ->
  sends l = [] ->
  evolves w w'.
Proof.
  intros Hc Hk Ha Hr He Hs. unfold evolves. rewrite Hc, Hk, Ha, Hr.
  do 4 (split; [reflexivity|]). split; [auto|].
  exists l, []. rewrite app_nil_r. auto.
Qed.

Lemma evolves_addEvents_log (w : World) (lv : level) (fmt : string) :
  evolves w (addEvents [EvLog lv fmt] w).
Proof. apply evolves_quiet with (l := [EvLog lv fmt]); reflexivity. Qed.

Lemma match_evolves (m : Metric) (w : World) : evolves w (snd (match_ m w)).
Proof.
  destruct (wlc (hitCache (self w)) !! Name m) as [e|] eqn:Hlook.
  { rewrite (match_hit _ _ _ Hlook). apply evolves_refl. }
  destruct (blacklisted (BlackList (Detector_ (cfg (self w)))) (Name m)) eqn:Hbl.
  { rewrite (match_black _ _ Hlook Hbl). simpl.
    eapply evolves_quiet; reflexivity. }
  rewrite (match_rules _ _ Hlook Hbl).
  destruct (firstMatch _ _) as [r|]; simpl.
  - eapply evolves_quiet with (l := [EvGetRules]); reflexivity.
  - eapply evolves_quiet with (l := [EvGetRules; EvLog Debug "%s hit no rules"]);
      try reflexivity.
    simpl. rewrite <- app_assoc. reflexivity.
Qed.

Lemma detect_evolves (m : Metric) (w : World) : evolves w (snd (detect m w)).
Proof.
  destruct (Get (db_State (db (self w))) m) as [s err] eqn:Hget.
  destruct (decide (err <> None /\ err <> Some ErrNotFound)) as [Hf|Hf].
  - destruct err as [e|]; [|destruct Hf; congruence].
    assert (e <> ErrNotFound) by (destruct Hf; congruence).
    rewrite (detect_get_fails m w s e Hget) by assumption. simpl.
    eapply evolves_quiet; reflexivity.
  - assert (Hok : err = None \/ err = Some ErrNotFound).
    { destruct err as [e|]; [|auto].
      destruct (decide (e = ErrNotFound)) as [->|Hne]; [auto|].
      exfalso. apply Hf. split; congruence. }
    destruct (Next (cursor (self w)) (if decide (err = Some ErrNotFound) then None else s) m)
      as [n0 m0] eqn:Hnext.
    destruct (Put (db_State (db (self w))) m0 n0) as [st' err'] eqn:Hput.
    rewrite (detect_scores m m0 w s err err' n0 st' Hget Hok Hnext Hput). simpl.
    eapply evolves_quiet; reflexivity.
Qed.

Lemma enqueue_evolves (m : Metric) (w : World) : evolves w (snd (enqueue m w)).
Proof.
  destruct (Z.ltb_spec (Z.of_nat (length (buf (rc (self w))))) (cap (rc (self w))))
    as [Hroom|Hfull].
  - rewrite (enqueue_room m w Hroom). unfold evolves. simpl.
    do 4 (split; [reflexivity|]). split.
    + intros _. rewrite length_app. simpl. lia.
    + exists [EvSend (Name m)], [m]. auto.
  - rewrite (enqueue_full m w Hfull). apply evolves_addEvents_log.
Qed.

Lemma handleLine_evolves (line : string) (w : World) :
  evolves w (snd (handleLine line w)).
Proof.
  unfold handleLine. destruct (parseMetric line) as [e|m].
  { apply evolves_addEvents_log. }
  unfold_monad.
  pose proof (match_evolves m w) as Hm.
  destruct (match_ m w) as [b w1]. simpl in Hm.
  destruct b; [|exact Hm].
  pose proof (detect_evolves m w1) as Hd.
  destruct (detect m w1) as [[m' err] w2]. simpl in Hd.
  apply (evolves_trans _ _ _ Hm). apply (evolves_trans _ _ _ Hd).
  destruct err as [e|].
  - apply evolves_addEvents_log.
  - eapply evolves_trans; [apply evolves_addEvents_log|].
    apply enqueue_evolves.
Qed.

Lemma handleLoop_evolves (steps : list (string * option error)) (w : World) :
  evolves w (snd (handleLoop steps w)).
Proof.
  revert w. induction steps as [|[line [e|]] rest IH]; intros w; simpl.
  - apply evolves_refl.
  - apply evolves_addEvents_log.
  - unfold_monad. pose proof (handleLine_evolves line w) as Hl.
    destruct (handleLine line w) as [[] w1]. simpl in Hl.
    eapply evolves_trans; [exact Hl | apply IH].
Qed.

Lemma handle_unfold (conn : list (string * option error)) (w : World) :
  snd (handle conn w) =
    addEvents [EvLog Info "conn %s disconnected"]
      (snd (handleLoop conn (addEvents [EvLog Info "conn %s established"] w))).
Proof.
  unfold handle. unfold_monad.
  destruct (handleLoop conn _) as [[] w1]. reflexivity.
Qed.

Lemma handle_evolves (conn : list (string * option error)) (w : World) :
  evolves w (snd (handle conn w)).
Proof.
  rewrite handle_unfold.
  eapply evolves_trans; [apply evolves_addEvents_log|].
  eapply evolves_trans; [apply handleLoop_evolves|].
  apply evolves_addEvents_log.
Qed.

(** ** The loop body of [handle], path by path *)

(** X6: a matched sample on which [detect] returns an error is logged
    and skipped: after the error log line nothing more happens, so the
    sample is not sent and the results channel is as it was before the
    line. *)
Theorem handleLine_detect_error_skips
        (line : string) (m m' : Metric) (e : error) (w w1 w2 : World) :
  parseMetric line = inr m ->
  match_ m w = (true, w1) ->
  detect m w1 = ((m', Some e), w2) ->
  snd (handleLine line w) = addEvents [EvLog Error "detect: %v, skipping.."] w2 /\
  rc (self (snd (handleLine line w))) = rc (self w) /\
  sends (skipn (length (events w)) (events (snd (handleLine line w)))) = [].
Proof.
  intros Hparse Hmatch Hdetect.
  assert (Hline : snd (handleLine line w)
                  = addEvents [EvLog Error "detect: %v, skipping.."] w2).
  { unfold handleLine. rewrite Hparse. unfold_monad.
    rewrite Hmatch, Hdetect. reflexivity. }
  pose proof (match_evolves m w) as Hm. rewrite Hmatch in Hm. simpl in Hm.
  pose proof (detect_evolves m w1) as Hd. rewrite Hdetect in Hd. simpl in Hd.
  pose proof (evolves_trans _ _ _ Hm Hd)
    as (_ & _ & _ & Hcap & _ & l & sent & Hev & Hbuf & Hs).
  pose proof (match_changes_rc m w) as Hrc1. rewrite Hmatch in Hrc1. simpl in Hrc1.
  pose proof (detect_changes_rc m w1) as Hrc2. rewrite Hdetect in Hrc2. simpl in Hrc2.
  rewrite Hline. simpl. split; [reflexivity|]. split; [congruence|].
  assert (Hsent : sent = []).
  { rewrite Hrc2, Hrc1 in Hbuf.
    apply (f_equal (@length _)) in Hbuf. rewrite length_app in Hbuf.
    destruct sent; [reflexivity | simpl in Hbuf; lia]. }
  rewrite Hev, <- app_assoc, skipn_app, skipn_all, Nat.sub_diag.
  rewrite skipn_O, app_nil_l, sends_app, Hs, Hsent. reflexivity.
Qed.

(** X7: a sample that [match] rejects is dropped silently: the loop
    body is just the call of [match]; the state store and the results
    channel are not touched and nothing is sent. *)
Theorem handleLine_unmatched_skips (line : string) (m : Metric) (w : World) :
  parseMetric line = inr m ->
  fst (match_ m w) = false ->
  snd (handleLine line w) = snd (match_ m w) /\
  db_State (db (self (snd (handleLine line w)))) = db_State (db (self w)) /\
  rc (self (snd (handleLine line w))) = rc (self w).
Proof.
  intros Hparse Hv.
  assert (Hline : snd (handleLine line w) = snd (match_ m w)).
  { unfold handleLine. rewrite Hparse. unfold_monad.
    destruct (match_ m w) as [b w1]. simpl in Hv. subst b. reflexivity. }
  rewrite Hline. split; [reflexivity|].
  pose proof (match_changes_rc m w) as Hrc.
  pose proof (match_changes_store m w) as Hst. auto.
Qed.

(** ** The scanning loop *)

Lemma handleLoop_app (pre post : list (string * option error)) (w : World) :
  Forall (fun step => snd step = None) pre ->
  snd (handleLoop (pre ++ post) w) = snd (handleLoop post (snd (handleLoop pre w))).
Proof.
  intros Hpre. revert w. induction Hpre as [|[line err] rest Hx _ IH]; intros w.
  - reflexivity.
  - simpl in Hx. subst err. simpl. unfold_monad.
    destruct (handleLine line w) as [[] w1]. apply IH.
Qed.

(** X8: the loop ends at the first scanner step that carries a read
    error: the lines before it are handled as usual, the line of that
    step and everything after it are never looked at, and one info line
    is logged. *)
Theorem handleLoop_stops_at_read_error
        (pre post : list (string * option error)) (line : string) (e : error)
        (w : World) :
  Forall (fun step => snd step = None) pre ->
  snd (handleLoop (pre ++ (line, Some e) :: post) w)
    = addEvents [EvLog Info "read conn: %v, closing it.."] (snd (handleLoop pre w)).
Proof.
  intros Hpre. rewrite (handleLoop_app pre _ w Hpre). reflexivity.
Qed.

(** X9: lines that do not parse leave the detector exactly as it was;
    each of them costs one error log line and the loop goes on. *)
Theorem handleLoop_malformed_lines (steps : list (string * option error)) (w : World) :
  Forall malformed steps ->
  snd (handleLoop steps w)
    = addEvents
        (repeat (EvLog Error "parse '%s': %v, skipping..") (length steps)) w.
Proof.
  intros Hall. revert w. induction Hall as [|[line err] rest Hx _ IH]; intros w.
  - simpl. unfold addEvents. rewrite app_nil_r. destruct w. reflexivity.
  - destruct Hx as [Herr [e He]]. simpl in Herr, He. subst err.
    simpl. unfold_monad. unfold handleLine. rewrite He. unfold_monad.
    rewrite IH. unfold addEvents. simpl. rewrite <- app_assoc. reflexivity.
Qed.

(** ** A whole connection *)

(** X10: a results channel that is within its capacity before a
    connection is handled is within it afterwards; the capacity itself
    never changes. *)
Theorem handle_buffer_bounded (conn : list (string * option error)) (w : World) :
  Z.of_nat (length (buf (rc (self w)))) <= cap (rc (self w)) ->
  Z.of_nat (length (buf (rc (self (snd (handle conn w))))))
    <= cap (rc (self (snd (handle conn w)))) /\
  cap (rc (self (snd (handle conn w)))) = cap (rc (self w)).
Proof.
  intros H. destruct (handle_evolves conn w) as (_ & _ & _ & Hcap & Hb & _).
  auto.
Qed.

(** X11: handling a connection only ever appends to the results
    channel: what was queued stays in front, in order, and the samples
    added behind are exactly those the trace reports as sent, in the
    order of the sends. *)
Theorem handle_appends_in_order (conn : list (string * option error)) (w : World) :
  exists (l : list event) (sent : list Metric),
    events (snd (handle conn w)) = (events w ++ l)%list /\
    buf (rc (self (snd (handle conn w)))) = (buf (rc (self w)) ++ sent)%list /\
    sends l = map Name sent.
Proof.
  destruct (handle_evolves conn w) as (_ & _ & _ & _ & _ & H). exact H.
Qed.

(** X12: handling a connection never changes the configuration, the
    cursor or the rule set of the detector. *)
Theorem handle_keeps_config (conn : list (string * option error)) (w : World) :
  cfg (self (snd (handle conn w))) = cfg (self w) /\
  cursor (self (snd (handle conn w))) = cursor (self w) /\
  db_Admin (db (self (snd (handle conn w)))) = db_Admin (db (self w)).
Proof.
  destruct (handle_evolves conn w) as (Hc & Hk & Ha & _). auto.
Qed.

(** X13: the trace of a connection opens with the "established" line
    and closes with the "disconnected" line, also when the loop was left
    on a read error. *)
Theorem handle_logs_both_ends (conn : list (string * option error)) (w : World) :
  exists l,
    events (snd (handle conn w))
      = (events w ++ [EvLog Info "conn %s established"] ++ l
                  ++ [EvLog Info "conn %s disconnected"])%list.
Proof.
  rewrite handle_unfold. simpl.
  destruct (handleLoop_evolves conn (addEvents [EvLog Info "conn %s established"] w))
    as (_ & _ & _ & _ & _ & l & _ & Hev & _).
  exists l. rewrite Hev. simpl. rewrite <- !app_assoc. reflexivity.
Qed.

(** ** The [select] under load *)

Lemma setChan_same (d : Detector) : setChan (rc d) d = d.
Proof. destruct d. reflexivity. Qed.

Lemma enqueueAll_room (ms : list Metric) :
  forall (w : World) (room : nat),
    room = Z.to_nat (cap (rc (self w)) - Z.of_nat (length (buf (rc (self w))))) ->
    buf (rc (self (snd (enqueueAll ms w))))
      = (buf (rc (self w)) ++ firstn room ms)%list /\
    cap (rc (self (snd (enqueueAll ms w)))) = cap (rc (self w)) /\
    self (snd (enqueueAll ms w))
      = setChan (rc (self (snd (enqueueAll ms w)))) (self w) /\
    events (snd (enqueueAll ms w))
      = (events w
         ++ map (fun m => EvSend (Name m)) (firstn room ms)
         ++ repeat
              (EvLog Warn "buffered metric results channel is full, drop current metric..")
              (length ms - room)%nat)%list.
Proof.
  induction ms as [|m rest IH]; intros w room Hroom.
  - simpl. unfold_monad. rewrite firstn_nil. simpl. rewrite !app_nil_r.
    split; [reflexivity|]. split; [reflexivity|]. split; [|reflexivity].
    symmetry. apply setChan_same.
  - simpl. unfold_monad.
    destruct (Z.ltb_spec (Z.of_nat (length (buf (rc (self w))))) (cap (rc (self w))))
      as [Hlt|Hge].
    + rewrite (enqueue_room m w Hlt).
      set (w1 := addEvents _ _).
      destruct room as [|room']; [lia|].
      assert (Hroom' : room' = Z.to_nat (cap (rc (self w1))
                                         - Z.of_nat (length (buf (rc (self w1)))))).
      { subst w1. simpl. rewrite length_app. simpl. lia. }
      destruct (IH w1 room' Hroom') as (Hbuf & Hcap & Hself & Hev).
      rewrite Hbuf, Hcap, Hev. subst w1. simpl.
      rewrite <- !app_assoc. simpl.
      split; [reflexivity|]. split; [reflexivity|]. split; [|reflexivity].
      rewrite Hself. reflexivity.
    + rewrite (enqueue_full m w Hge).
      set (w1 := addEvents _ _).
      assert (Hzero : room = 0%nat) by lia. clear Hroom. subst room.
      assert (Hroom' : 0%nat = Z.to_nat (cap (rc (self w1))
                                         - Z.of_nat (length (buf (rc (self w1))))))
        by (subst w1; simpl; lia).
      destruct (IH w1 0%nat Hroom') as (Hbuf & Hcap & Hself & Hev).
      rewrite Hbuf, Hcap, Hev. subst w1. simpl.
      rewrite Nat.sub_0_r, <- !app_assoc. simpl.
      split; [reflexivity|]. split; [reflexivity|]. split; [|reflexivity].
      rewrite Hself. reflexivity.
Qed.

(** X14: scored samples arriving one after another fill the room the
    results channel has left, in arrival order; every later one is
    dropped with one warning each. Nothing but the channel changes, and
    every enqueue returns. *)
Theorem enqueueAll_fills_then_drops (ms : list Metric) (w : World) :
  let room := Z.to_nat (cap (rc (self w)) - Z.of_nat (length (buf (rc (self w))))) in
  buf (rc (self (snd (enqueueAll ms w))))
    = (buf (rc (self w)) ++ firstn room ms)%list /\
  self (snd (enqueueAll ms w))
    = setChan (rc (self (snd (enqueueAll ms w)))) (self w) /\
  events (snd (enqueueAll ms w))
    = (events w
       ++ map (fun m => EvSend (Name m)) (firstn room ms)
       ++ repeat
            (EvLog Warn "buffered metric results channel is full, drop current metric..")
            (length ms - room)%nat)%list.
Proof.
  intros room. destruct (enqueueAll_room ms w room eq_refl) as (Hb & _ & Hs & He).
  auto.
Qed.

End MoreProofs.

(** ** The line shown in the parse-error log *)

Lemma substring_0_length (n : nat) :
  forall s, String.length (substring 0 n s) = Nat.min n (String.length s).
Proof.
  induction n as [|n IH]; intros [|c s]; simpl; try reflexivity.
  rewrite IH. reflexivity.
Qed.

Lemma substring_0_prefix (n : nat) :
  forall s, exists rest, s = (substring 0 n s ++ rest)%string.
Proof.
  induction n as [|n IH]; intros [|c s]; simpl.
  - exists EmptyString. reflexivity.
  - exists (String c s). reflexivity.
  - exists EmptyString. reflexivity.
  - destruct (IH s) as [rest Hrest]. exists rest.
    change (String c s = String c (substring 0 n s ++ rest)%string).
    f_equal. exact Hrest.
Qed.

(** X15: the text of a line that the parse-error log shows is a prefix
    of the line of at most 10 bytes: the line itself when it has no more
    than 10 bytes, its first 10 bytes otherwise. *)
Theorem truncateLine_prefix (line : string) :
  (String.length (truncateLine line) <= 10)%nat /\
  (exists rest, line = (truncateLine line ++ rest)%string) /\
  ((String.length line <= 10)%nat -> truncateLine line = line) /\
  ((10 < String.length line)%nat -> String.length (truncateLine line) = 10%nat).
Proof.
  unfold truncateLine.
  destruct (Z.ltb_spec 10 (Z.of_nat (String.length line))) as [Hlong|Hshort].
  - rewrite substring_0_length. split; [lia|]. split; [apply substring_0_prefix|].
    split; [lia | intros _; lia].
  - split; [lia|]. split; [exists EmptyString|].
    + clear Hshort. induction line as [|c s IH]; [reflexivity|].
      change (String c s = String c (s ++ EmptyString)%string).
      f_equal. exact IH.
    + split; [reflexivity | lia].
Qed.

(** ** The further statements at explicit inputs *)

Lemma match_miss_verdict_iff_witness :
  wlc (hitCache (self demoW0)) !! "svc.latency" = None /\
  fst (match_ (demoMetric "svc.latency") demoW0) = true.
Proof.
  assert (Hmiss : wlc (hitCache (self demoW0)) !! Name (demoMetric "svc.latency") = None)
    by reflexivity.
  split; [exact Hmiss|].
  apply (match_miss_verdict_iff (C:=demo) (demoMetric "svc.latency") demoW0 Hmiss).
  split; [reflexivity|].
  exists (mkRule 8 "svc."). split; [simpl; tauto | reflexivity].
Defined.

Lemma match_twice_same_verdict_witness :
  is_Some (wlc (hitCache (self demoW1)) !! "svc.latency") /\
  fst (match_ (demoMetric "svc.latency") demoW1)
    = fst (match_ (demoMetric "svc.latency") demoW0) /\
  snd (match_ (demoMetric "svc.latency") demoW1) = demoW1.
Proof.
  assert (Hsome : is_Some (wlc (hitCache (self (snd (match_ (demoMetric "svc.latency")
                                                            demoW0))))
                             !! Name (demoMetric "svc.latency")))
    by (eexists; reflexivity).
  destruct (match_twice_same_verdict (C:=demo) (demoMetric "svc.latency") demoW0)
    as [Hv Hw].
  split; [exact Hsome|].
  split; [exact Hv | exact (Hw Hsome)].
Defined.

Lemma match_no_rule_uncached_witness :
  wlc (hitCache (self demoW0)) !! "other" = None /\
  blacklisted ["foo."] "other" = false /\
  fst (match_ (demoMetric "other") demoW0) = false /\
  wlc (hitCache (self (snd (match_ (demoMetric "other") demoW0)))) !! "other" = None.
Proof.
  assert (Hmiss : wlc (hitCache (self demoW0)) !! Name (demoMetric "other") = None)
    by reflexivity.
  assert (Hbl : blacklisted (BlackList (Detector_ (cfg (self demoW0))))
                            (Name (demoMetric "other")) = false)
    by reflexivity.
  assert (Hnone : forall r, In r (rs_rules (db_Admin (db (self demoW0)))) ->
                            Match (Name (demoMetric "other")) (Pattern r) = false).
  { intros r [<-|[<-|[<-|[]]]]; reflexivity. }
  destruct (match_no_rule_uncached (C:=demo) (demoMetric "other") demoW0 Hmiss Hbl Hnone)
    as (Hv & Hlook & _).
  split; [exact Hmiss|]. split; [exact Hbl|]. split; [exact Hv | exact Hlook].
Defined.

Lemma handleLine_detect_error_skips_witness :
  parseMetric "svc.latency" = inr (demoMetric "svc.latency") /\
  fst (match_ (demoMetric "svc.latency") demoBroken) = true /\
  snd (fst (detect (demoMetric "svc.latency")
                   (snd (match_ (demoMetric "svc.latency") demoBroken))))
    = Some (ErrOther "io") /\
  rc (self (snd (handleLine "svc.latency" demoBroken))) = rc (self demoBroken).
Proof.
  assert (Hparse : parseMetric "svc.latency" = inr (demoMetric "svc.latency"))
    by reflexivity.
  assert (Hmatch : match_ (demoMetric "svc.latency") demoBroken
                   = (true, snd (match_ (demoMetric "svc.latency") demoBroken)))
    by reflexivity.
  assert (Hdetect : detect (demoMetric "svc.latency")
                           (snd (match_ (demoMetric "svc.latency") demoBroken))
                    = ((demoMetric "svc.latency", Some (ErrOther "io")),
                       snd (detect (demoMetric "svc.latency")
                                   (snd (match_ (demoMetric "svc.latency") demoBroken)))))
    by reflexivity.
  destruct (handleLine_detect_error_skips (C:=demo) _ _ _ _ _ _ _ Hparse Hmatch Hdetect)
    as (_ & Hrc & _).
  split; [exact Hparse|]. split; [rewrite Hmatch; reflexivity|].
  split; [rewrite Hdetect; reflexivity | exact Hrc].
Defined.

Lemma handleLine_unmatched_skips_witness :
  parseMetric "other" = inr (demoMetric "other") /\
  fst (match_ (demoMetric "other") demoW0) = false /\
  db_State (db (self (snd (handleLine "other" demoW0)))) = db_State (db (self demoW0)) /\
  rc (self (snd (handleLine "other" demoW0))) = rc (self demoW0).
Proof.
  assert (Hparse : parseMetric "other" = inr (demoMetric "other")) by reflexivity.
  assert (Hv : fst (match_ (demoMetric "other") demoW0) = false) by reflexivity.
  destruct (handleLine_unmatched_skips (C:=demo) "other" (demoMetric "other") demoW0
              Hparse Hv) as (_ & Hst & Hrc).
  split; [exact Hparse|]. split; [exact Hv|]. split; [exact Hst | exact Hrc].
Defined.

Lemma handleLoop_stops_at_read_error_witness :
  Forall (fun step : string * option error => snd step = None) [("svc.latency", None)] /\
  snd (handleLoop [("svc.latency", None); ("svc.cpu", Some (ErrOther "reset"));
                   ("db.qps", None)] demoW0)
    = addEvents [EvLog Info "read conn: %v, closing it.."]
        (snd (handleLoop [("svc.latency", None)] demoW0)).
Proof.
  assert (Hpre : Forall (fun step : string * option error => snd step = None)
                        [("svc.latency", None)])
    by (constructor; [reflexivity | constructor]).
  split; [exact Hpre|].
  exact (handleLoop_stops_at_read_error (C:=demo) [("svc.latency", None)]
           [("db.qps", None)] "svc.cpu" (ErrOther "reset") demoW0 Hpre).
Defined.

Lemma handleLoop_malformed_lines_witness :
  Forall (malformed (C:=demo)) [("", None); ("", None)] /\
  self (snd (handleLoop [("", None); ("", None)] demoW1)) = self demoW1.
Proof.
  assert (Hall : Forall (malformed (C:=demo)) [("", None); ("", None)]).
  { repeat constructor; exists (ErrOther "empty"); reflexivity. }
  split; [exact Hall|].
  rewrite (handleLoop_malformed_lines (C:=demo) _ demoW1 Hall). reflexivity.
Defined.

Lemma handle_buffer_bounded_witness :
  Z.of_nat (length (buf (rc (self demoFull)))) <= cap (rc (self demoFull)) /\
  Z.of_nat (length (buf (rc (self (snd (handle [("svc.latency", None)] demoFull))))))
    <= cap (rc (self (snd (handle [("svc.latency", None)] demoFull)))).
Proof.
  assert (H : Z.of_nat (length (buf (rc (self demoFull)))) <= cap (rc (self demoFull)))
    by (vm_compute; discriminate).
  split; [exact H|].
  exact (proj1 (handle_buffer_bounded (C:=demo) [("svc.latency", None)] demoFull H)).
Defined.

(** ** A fresh detector *)

Section FreshDetector.
Context {C : Collaborators}.

(** X16: the detector that [New] returns has an empty cache, so its
    first call of [match] scans for every name: the verdict is true
    exactly when the name is not blacklisted and some rule matches it,
    and the rule set is fetched exactly when the name is not
    blacklisted. *)
Theorem New_first_match (cfg0 : @Config float64) (db0 : DB) (m : @Metric float64) :
  (fst (match_ m (start cfg0 db0)) = true <->
   blacklisted (BlackList (Detector_ cfg0)) (Name m) = false /\
   exists r, In r (rs_rules (db_Admin db0)) /\ Match (Name m) (Pattern r) = true) /\
  (In EvGetRules (events (snd (match_ m (start cfg0 db0)))) <->
   blacklisted (BlackList (Detector_ cfg0)) (Name m) = false).
Proof.
  assert (Hmiss : wlc (hitCache (self (start cfg0 db0))) !! Name m = None)
    by apply lookup_empty.
  destruct (blacklisted (BlackList (Detector_ cfg0)) (Name m)) eqn:Hbl.
  - rewrite (match_black m (start cfg0 db0) Hmiss Hbl). simpl. split.
    + split; [discriminate | intros [? _]; discriminate].
    + split; [intros [?|[]]; discriminate | discriminate].
  - rewrite (match_rules m (start cfg0 db0) Hmiss Hbl). simpl.
    destruct (firstMatch (rs_rules (db_Admin db0)) (Name m)) as [r|] eqn:Hr; simpl.
    + split; [|split; auto].
      split; [intros _ | reflexivity]. split; [reflexivity|].
      destruct (firstMatch_split _ _ _ Hr) as (before & after & Hsplit & Hm & _).
      exists r. split; [|exact Hm]. rewrite Hsplit. apply in_or_app. simpl. auto.
    + split; [|split; auto].
      split; [discriminate|]. intros [_ (r & Hin & Hm)].
      assert (Hall : forall r, In r (rs_rules (db_Admin db0)) ->
                               Match (Name m) (Pattern r) = false).
      { intros r0 Hin0. exact (find_none _ _ Hr r0 Hin0). }
      rewrite (Hall r Hin) in Hm. discriminate.
Qed.

End FreshDetector.

(** ** When the cache is validated, and what an unrecorded verdict is for *)

Section CacheValidation.
Context {C : Collaborators}.

#[local] Abbreviation Metric := (@Metric float64).

(** The trace that one call of [match] adds. *)
Lemma match_new_events (m : Metric) (w : World) :
  skipn (length (events w)) (events (snd (match_ m w))) =
    match wlc (hitCache (self w)) !! Name m with
    | Some _ => []
    | None =>
        if blacklisted (BlackList (Detector_ (cfg (self w)))) (Name m)
        then [EvLog Debug "%s hit black pattern %s"]
        else match firstMatch (rs_rules (db_Admin (db (self w)))) (Name m) with
             | Some _ => [EvGetRules]
             | None => [EvGetRules; EvLog Debug "%s hit no rules"]
             end
    end.
Proof.
  destruct (wlc (hitCache (self w)) !! Name m) as [e|] eqn:Hlook.
  { rewrite (match_hit _ _ _ Hlook). simpl. apply skipn_all. }
  destruct (blacklisted (BlackList (Detector_ (cfg (self w)))) (Name m)) eqn:Hbl.
  { rewrite (match_black _ _ Hlook Hbl). simpl.
    rewrite skipn_app, skipn_all, Nat.sub_diag, skipn_O. reflexivity. }
  rewrite (match_rules _ _ Hlook Hbl).
  destruct (firstMatch _ _) as [r|]; simpl.
  - rewrite skipn_app, skipn_all, Nat.sub_diag, skipn_O. reflexivity.
  - rewrite <- app_assoc, skipn_app, skipn_all, Nat.sub_diag, skipn_O. reflexivity.
Qed.

(** C1 (as the code has it): for a name present in the cache, [match]
    returns the stored verdict without validating the cache: whatever
    the current rule set is, the verdict is the stored one, no rule set
    is fetched, and the entries and the stored token are as before. A
    call of [match] fetches the rule set and validates the cache exactly
    when the name misses the cache and is not blacklisted; taken as one
    step, such a call leaves the stored token equal to the current
    version, and every entry it leaves for another name was already
    cached under that token. *)
Theorem match_hit_skips_validation (m : Metric) (w : World) (e : cacheEntry) :
  wlc (hitCache (self w)) !! Name m = Some e ->
  (forall rs,
     match_ m (onSelf (setAdmin rs) w) = (matched e, onSelf (setAdmin rs) w)) /\
  hitCache (self (snd (match_ m w))) = hitCache (self w) /\
  ~ In EvGetRules (skipn (length (events w)) (events (snd (match_ m w)))) /\
  (forall (m' : Metric) (w' : World),
     (In EvGetRules (skipn (length (events w')) (events (snd (match_ m' w')))) <->
      wlc (hitCache (self w')) !! Name m' = None /\
      blacklisted (BlackList (Detector_ (cfg (self w')))) (Name m') = false) /\
     (wlc (hitCache (self w')) !! Name m' = None ->
      blacklisted (BlackList (Detector_ (cfg (self w')))) (Name m') = false ->
      seen (hitCache (self (snd (match_ m' w'))))
        = Some (rs_version (db_Admin (db (self w')))) /\
      forall name e',
        name <> Name m' ->
        wlc (hitCache (self (snd (match_ m' w')))) !! name = Some e' ->
        seen (hitCache (self w')) = Some (rs_version (db_Admin (db (self w')))) /\
        wlc (hitCache (self w')) !! name = Some e')).
Proof.
  intros Hhit. split; [|split; [|split]].
  - intros rs. apply match_hit. exact Hhit.
  - rewrite (match_hit _ _ _ Hhit). reflexivity.
  - rewrite match_new_events, Hhit. intros [].
  - intros m' w'. split.
    + rewrite match_new_events.
      destruct (wlc (hitCache (self w')) !! Name m') as [e'|].
      { split; [intros [] | intros [? _]; discriminate]. }
      destruct (blacklisted _ _).
      { split; [intros [?|[]]; discriminate | intros [_ ?]; discriminate]. }
      split; [auto|]. intros _. destruct (firstMatch _ _); simpl; auto.
    + intros Hmiss Hbl. rewrite (match_rules _ _ Hmiss Hbl).
      destruct (firstMatch _ _) as [r|]; simpl.
      * split; [apply updateRules_seen|].
        intros name e' Hne. rewrite lookup_insert_ne by congruence.
        apply updateRules_lookup.
      * split; [apply updateRules_seen|].
        intros name e' _. apply updateRules_lookup.
Qed.

(** C2 (as the code has it): for a name that misses the cache, matches
    no blacklist pattern and no rule of the current rule set, [match]
    returns false and records no verdict: the cache holds no entry for
    the name afterwards. The next call for the name is therefore decided
    by the rule set that is current then: it answers true exactly when
    that rule set has a matching rule. *)
Theorem match_no_rule_not_recorded (m : Metric) (w : World) :
  wlc (hitCache (self w)) !! Name m = None ->
  blacklisted (BlackList (Detector_ (cfg (self w)))) (Name m) = false ->
  (forall r, In r (rs_rules (db_Admin (db (self w)))) ->
             Match (Name m) (Pattern r) = false) ->
  fst (match_ m w) = false /\
  wlc (hitCache (self (snd (match_ m w)))) !! Name m = None /\
  (forall rs,
     fst (match_ m (onSelf (setAdmin rs) (snd (match_ m w)))) = true <->
     exists r, In r (rs_rules rs) /\ Match (Name m) (Pattern r) = true).
Proof.
  intros Hmiss Hbl Hnone. apply firstMatch_none_iff in Hnone.
  rewrite (match_no_rule _ _ Hmiss Hbl Hnone). simpl.
  assert (Hmiss' : wlc (updateRules (hitCache (self w)) (db_Admin (db (self w))))
                     !! Name m = None).
  { destruct (wlc (updateRules _ _) !! Name m) as [e|] eqn:He; [|reflexivity].
    apply updateRules_lookup in He as [_ He]. congruence. }
  split; [reflexivity|]. split; [exact Hmiss'|].
  intros rs. rewrite match_rules by (simpl; assumption). simpl.
  destruct (firstMatch (rs_rules rs) (Name m)) as [r|] eqn:Hr; simpl.
  - split; [intros _ | reflexivity].
    destruct (firstMatch_split _ _ _ Hr) as (before & after & Hsplit & Hm & _).
    exists r. split; [|exact Hm]. rewrite Hsplit. apply in_or_app. simpl. auto.
  - split; [discriminate|]. intros (r & Hin & Hm).
    rewrite (proj1 (firstMatch_none_iff _ _) Hr r Hin) in Hm. discriminate.
Qed.

End CacheValidation.

Lemma match_hit_skips_validation_witness :
  wlc (hitCache (self demoW1)) !! "svc.latency"
    = Some (mkEntry true (Some (mkRule 8 "svc."))) /\
  match_ (demoMetric "svc.latency") demoW2 = (true, demoW2) /\
  seen (hitCache (self demoW2)) = Some 1 /\
  rs_version (db_Admin (db (self demoW2))) = 2 /\
  seen (hitCache (self (snd (match_ (demoMetric "other") demoW2)))) = Some 2.
Proof.
  assert (Hhit : wlc (hitCache (self demoW1)) !! Name (demoMetric "svc.latency")
                 = Some (mkEntry true (Some (mkRule 8 "svc."))))
    by reflexivity.
  destruct (match_hit_skips_validation (C:=demo) (demoMetric "svc.latency") demoW1 _ Hhit)
    as (Hstale & _ & _ & Hval).
  split; [exact Hhit|]. split; [exact (Hstale rules2)|].
  split; [reflexivity|]. split; [reflexivity|].
  destruct (Hval (demoMetric "other") demoW2) as [_ Hmiss].
  exact (proj1 (Hmiss eq_refl eq_refl)).
Defined.

Lemma match_no_rule_not_recorded_witness :
  wlc (hitCache (self demoW0)) !! "other" = None /\
  blacklisted ["foo."] "other" = false /\
  fst (match_ (demoMetric "other") demoW0) = false /\
  wlc (hitCache (self (snd (match_ (demoMetric "other") demoW0)))) !! "other" = None /\
  fst (match_ (demoMetric "other")
              (onSelf (setAdmin {| rs_version := 3; rs_rules := [mkRule 4 "oth"] |})
                      (snd (match_ (demoMetric "other") demoW0)))) = true.
Proof.
  assert (Hmiss : wlc (hitCache (self demoW0)) !! Name (demoMetric "other") = None)
    by reflexivity.
  assert (Hbl : blacklisted (BlackList (Detector_ (cfg (self demoW0))))
                            (Name (demoMetric "other")) = false)
    by reflexivity.
  assert (Hnone : forall r, In r (rs_rules (db_Admin (db (self demoW0)))) ->
                            Match (Name (demoMetric "other")) (Pattern r) = false).
  { intros r [<-|[<-|[<-|[]]]]; reflexivity. }
  destruct (match_no_rule_not_recorded (C:=demo) (demoMetric "other") demoW0
              Hmiss Hbl Hnone) as (Hv & Hlook & Hnext).
  split; [exact Hmiss|]. split; [exact Hbl|]. split; [exact Hv|].
  split; [exact Hlook|].
  apply (Hnext {| rs_version := 3; rs_rules := [mkRule 4 "oth"] |}).
  exists (mkRule 4 "oth"). split; [simpl; tauto | reflexivity].
Defined.
